(** * Verification of the CSV/S3 row encoding and the samplers of veneur

    Shallow embedding of [plugins/s3/csv.go] ([EncodeInterMetricCSV]),
    of the parts of Go's [encoding/csv], [bufio], [unicode/utf8] and
    [time] packages (Go 1.10) it relies on, and of the samplers whose
    tests accompany it. *)

From Stdlib Require Import ZArith QArith List String Ascii Bool Lia.
From Stdlib Require Import Numbers.DecimalString Numbers.DecimalN.
Import ListNotations.
Open Scope string_scope.

(* ================================================================== *)
(** ** Strings *)

Module Str.
Definition tab : ascii := Ascii.ascii_of_nat 9.
Definition lf : ascii := Ascii.ascii_of_nat 10.
Definition cr : ascii := Ascii.ascii_of_nat 13.
Definition dquote : ascii := Ascii.ascii_of_nat 34.

Definition char (c : ascii) : string := String c EmptyString.

(** [strings.Join] *)
Fixpoint join (sep : string) (l : list string) : string :=
  match l with
  | [] => ""
  | [s] => s
  | s :: rest => s ++ sep ++ join sep rest
  end.

Fixpoint contains_char (c : ascii) (s : string) : bool :=
  match s with
  | EmptyString => false
  | String c' s' => Ascii.eqb c c' || contains_char c s'
  end.

(** Decimal rendering of naturals and integers. *)
Definition of_N (n : N) : string := NilEmpty.string_of_uint (N.to_uint n).
Definition of_Z (z : Z) : string := NilEmpty.string_of_int (Z.to_int z).

(** [n] rendered in decimal, left-padded with zeros to [width]. *)
Definition pad_N (width : nat) (n : N) : string :=
  let s := of_N n in
  String.concat "" (repeat "0" (width - String.length s)) ++ s.


(** [s[:n]] and [s[n:]], cut at the end of [s]. *)
Fixpoint take (n : nat) (s : string) : string :=
  match n, s with
  | O, _ => EmptyString
  | _, EmptyString => EmptyString
  | S n', String c s' => String c (take n' s')
  end.

Fixpoint drop (n : nat) (s : string) : string :=
  match n, s with
  | O, _ => s
  | _, EmptyString => EmptyString
  | S n', String _ s' => drop n' s'
  end.

End Str.


(* ================================================================== *)
(** ** Go's [unicode/utf8] *)

Module Utf8.
Import Str.
Open Scope Z_scope.

Definition RuneSelf : Z := 128.
Definition UTFMax : nat := 4.
Definition RuneError : Z := 65533.
Definition MaxRune : Z := 1114111.

(** [utf8.ValidRune]: not negative, not a surrogate, at most [MaxRune]. *)
Definition ValidRune (r : Z) : bool :=
  ((0 <=? r) && (r <? 55296)) || ((57343 <? r) && (r <=? MaxRune)).

(** [byte(x)]: the low 8 bits of [x]. *)
Definition byte (x : Z) : ascii := ascii_of_N (Z.to_N (x mod 256)).

(** [utf8.EncodeRune], which [string(r)] also uses: a negative rune, a
    surrogate or a rune above [MaxRune] is written as [RuneError]. *)
Definition EncodeRune (r : Z) : string :=
  if (0 <=? r) && (r <=? 127) then char (byte r)
  else if (0 <=? r) && (r <=? 2047) then
    char (byte (Z.lor 192 (Z.shiftr r 6))) ++ char (byte (Z.lor 128 (Z.land r 63)))
  else
    let r := if ValidRune r then r else RuneError in
    if r <=? 65535 then
      char (byte (Z.lor 224 (Z.shiftr r 12)))
      ++ char (byte (Z.lor 128 (Z.land (Z.shiftr r 6) 63)))
      ++ char (byte (Z.lor 128 (Z.land r 63)))
    else
      char (byte (Z.lor 240 (Z.shiftr r 18)))
      ++ char (byte (Z.lor 128 (Z.land (Z.shiftr r 12) 63)))
      ++ char (byte (Z.lor 128 (Z.land (Z.shiftr r 6) 63)))
      ++ char (byte (Z.lor 128 (Z.land r 63))).

End Utf8.

(* ================================================================== *)
(** ** Go's [bufio.Writer] (Go 1.10)

    The buffered writer [encoding/csv] writes through.  Its underlying
    [io.Writer] is a [Sink]: the bytes it has taken, and how many more it
    takes before it fails ([None]: it never fails).  A call that asks for
    more writes the bytes the sink still takes and returns an error.
    Since [bufio] makes no call after the first error, this covers every
    writer whose failing call writes a prefix of its argument. *)

Module Bufio.
Import Str.
Open Scope nat_scope.

(** The error of the underlying writer, and [io.ErrShortWrite]. *)
Inductive Err := ErrUnderlying | ErrShortWrite.

Record Sink := mkSink { s_out : string; s_room : option nat }.

(** [wr.Write(p)]: the sink after the call, the count, the error. *)
Definition sink_write (u : Sink) (p : string) : Sink * nat * option Err :=
  match s_room u with
  | None => (mkSink (s_out u ++ p) None, String.length p, None)
  | Some k =>
      if (String.length p <=? k)%nat
      then (mkSink (s_out u ++ p) (Some (k - String.length p)%nat), String.length p, None)
      else (mkSink (s_out u ++ take k p) (Some 0), k, Some ErrUnderlying)
  end.

(** [bufio.Writer]: the sticky error [err], the buffered bytes [buf]
    ([b.buf[0:b.n]]), the buffer size [len(b.buf)] and the writer [wr]. *)
Record Writer := mkWriter { err : option Err; buf : string; size : nat; wr : Sink }.

Definition defaultBufSize : nat := 4096.

(** [bufio.NewWriter] *)
Definition NewWriter (u : Sink) : Writer := mkWriter None "" defaultBufSize u.

Definition with_buf (b : Writer) (s : string) : Writer := mkWriter (err b) s (size b) (wr b).

Definition Available (b : Writer) : nat := (size b - String.length (buf b))%nat.
Definition Buffered (b : Writer) : nat := String.length (buf b).

(** [Writer.Flush]: on an error, the bytes not taken stay buffered and
    the error sticks. *)
Definition Flush (b : Writer) : Writer * option Err :=
  match err b with
  | Some e => (b, Some e)
  | None =>
      if Nat.eqb (Buffered b) 0 then (b, None)
      else
        let '(u, n, e) := sink_write (wr b) (buf b) in
        let e := match e with
                 | None => if (n <? Buffered b)%nat then Some ErrShortWrite else None
                 | Some e => Some e
                 end in
        match e with
        | Some e => (mkWriter (Some e) (drop n (buf b)) (size b) u, Some e)
        | None => (mkWriter None "" (size b) u, None)
        end
  end.

(** The loop of [Writer.WriteString]: while [s] does not fit and there is
    no error, fill the buffer ([copy(b.buf[b.n:], s)]) and flush it.  The
    fuel [S (length s)] that [WriteString] gives is never exhausted when
    the size is positive: every iteration after the first one copies a
    whole buffer. *)
Fixpoint writeString_loop (fuel : nat) (b : Writer) (s : string) : Writer * string :=
  match fuel with
  | O => (b, s)
  | S fuel' =>
      if ((Available b <? String.length s)%nat
          && match err b with None => true | Some _ => false end)%bool then
        let n := Available b in
        let b := with_buf b (buf b ++ take n s) in
        let b := fst (Flush b) in
        writeString_loop fuel' b (drop n s)
      else (b, s)
  end.

(** [Writer.WriteString] *)
Definition WriteString (b : Writer) (s : string) : Writer * option Err :=
  let '(b, s) := writeString_loop (S (String.length s)) b s in
  match err b with
  | Some e => (b, Some e)
  | None => (with_buf b (buf b ++ take (Available b) s), None)
  end.

(** [Writer.WriteByte] *)
Definition WriteByte (b : Writer) (c : ascii) : Writer * option Err :=
  match err b with
  | Some e => (b, Some e)
  | None =>
      let '(b, e) := if Nat.eqb (Available b) 0 then Flush b else (b, None) in
      match e with
      | Some _ => (b, err b)
      | None => (with_buf b (buf b ++ char c), None)
      end
  end.

(** [Writer.WriteRune] *)
Definition WriteRune (b : Writer) (r : Z) : Writer * option Err :=
  if (r <? Utf8.RuneSelf)%Z then WriteByte b (Utf8.byte r)
  else
    match err b with
    | Some e => (b, Some e)
    | None =>
        if (Available b <? Utf8.UTFMax)%nat then
          let b := fst (Flush b) in
          match err b with
          | Some e => (b, Some e)
          | None =>
              if (Available b <? Utf8.UTFMax)%nat then WriteString b (Utf8.EncodeRune r)
              else (with_buf b (buf b ++ Utf8.EncodeRune r), None)
          end
        else (with_buf b (buf b ++ Utf8.EncodeRune r), None)
    end.

(** [b.Write(nil)]: the loop of [Write] does not run for an empty slice,
    which returns [b.err]. *)
Definition Write_nil (b : Writer) : option Err := err b.

(** The early return on an error of the code that calls the writer. *)
Definition bind (r : Writer * option Err) (k : Writer -> Writer * option Err)
  : Writer * option Err :=
  match r with
  | (b, Some e) => (b, Some e)
  | (b, None) => k b
  end.

End Bufio.

(* ================================================================== *)
(** ** Go's [encoding/csv] writer (Go 1.10) *)

Module Csv.
Import Str.
Open Scope Z_scope.

(** [csv.Writer]: the delimiter rune [Comma], [UseCRLF], and the
    [bufio.Writer] it writes through. *)
Record Writer := mkWriter { Comma : Z; UseCRLF : bool; w : Bufio.Writer }.

(** [csv.NewWriter] *)
Definition NewWriter (u : Bufio.Sink) : Writer := mkWriter 44 false (Bufio.NewWriter u).

(** The error of [Writer.Write]: [errInvalidDelim], or the error of the
    [bufio.Writer]. *)
Inductive WriteError := ErrInvalidDelim | IOError (e : Bufio.Err).

(** [validDelim] *)
Definition validDelim (r : Z) : bool :=
  negb (r =? 0) && negb (r =? 34) && negb (r =? 13) && negb (r =? 10)
  && Utf8.ValidRune r && negb (r =? Utf8.RuneError).

(** [unicode.IsSpace] of the first rune of a UTF-8 string: the Latin-1
    spaces and the other code points of the [White_Space] table. *)
Definition starts_with_space (s : string) : bool :=
  match List.map nat_of_ascii (list_ascii_of_string s) with
  | (9 | 10 | 11 | 12 | 13 | 32) :: _ => true
  | 194 :: (133 | 160) :: _ => true                        (* U+0085, U+00A0 *)
  | 225 :: 154 :: 128 :: _ => true                         (* U+1680 *)
  | 226 :: 128 :: b :: _ =>                                (* U+2000..U+200A, U+2028, U+2029, U+202F *)
      ((128 <=? b) && (b <=? 138)) || (b =? 168) || (b =? 169) || (b =? 175)
  | 226 :: 129 :: 159 :: _ => true                         (* U+205F *)
  | 227 :: 128 :: 128 :: _ => true                         (* U+3000 *)
  | _ => false
  end%nat.

(** [strings.Contains(s, sub)] *)
Fixpoint contains_sub (sub s : string) : bool :=
  String.prefix sub s
  || match s with
     | EmptyString => false
     | String _ s' => contains_sub sub s'
     end.

(** [strings.ContainsRune(s, r)] for the runes [validDelim] accepts: an
    ASCII rune is searched as a byte, any other as its UTF-8 bytes.
    ([RuneError] and invalid runes, which [validDelim] rejects before
    [fieldNeedsQuotes] runs, are not modelled and give [false].) *)
Definition ContainsRune (s : string) (r : Z) : bool :=
  if (0 <=? r) && (r <? Utf8.RuneSelf) then contains_char (Utf8.byte r) s
  else if Utf8.ValidRune r && negb (r =? Utf8.RuneError)
  then contains_sub (Utf8.EncodeRune r) s
  else false.

(** [Writer.fieldNeedsQuotes] *)
Definition fieldNeedsQuotes (comma : Z) (field : string) : bool :=
  if String.eqb field "" then false
  else if String.eqb field "\." || ContainsRune field comma
          || contains_char dquote field || contains_char cr field
          || contains_char lf field
  then true
  else starts_with_space field.

Definition is_special (c : ascii) : bool :=
  Ascii.eqb c dquote || Ascii.eqb c cr || Ascii.eqb c lf.

(** [strings.IndexAny] of the double quote, CR and LF in a field, or
    [len(field)] when there is none. *)
Fixpoint index_special (s : string) : nat :=
  match s with
  | EmptyString => O
  | String c s' => if is_special c then O else S (index_special s')
  end.

(** The [switch field[0]] of the quoted-field loop. *)
Definition write_special (crlf : bool) (b : Bufio.Writer) (c : ascii)
  : Bufio.Writer * option Bufio.Err :=
  if Ascii.eqb c dquote then Bufio.WriteString b (char dquote ++ char dquote)
  else if Ascii.eqb c cr then (if crlf then (b, None) else Bufio.WriteByte b cr)
  else if Ascii.eqb c lf then
    (if crlf then Bufio.WriteString b (char cr ++ char lf) else Bufio.WriteByte b lf)
  else (b, None).

(** [for len(field) > 0 { ... }] of a quoted field.  Every iteration
    shortens the field, so the fuel [S (len(field))] is never exhausted. *)
Fixpoint write_quoted (crlf : bool) (fuel : nat) (b : Bufio.Writer) (field : string)
  : Bufio.Writer * option Bufio.Err :=
  match fuel with
  | O => (b, None)
  | S fuel' =>
      match field with
      | EmptyString => (b, None)
      | _ =>
          let i := index_special field in
          Bufio.bind (Bufio.WriteString b (take i field)) (fun b =>
            match drop i field with
            | EmptyString => (b, None)
            | String c rest =>
                Bufio.bind (write_special crlf b c) (fun b => write_quoted crlf fuel' b rest)
            end)
      end
  end.

(** One field of [Writer.Write]. *)
Definition write_field (comma : Z) (crlf : bool) (b : Bufio.Writer) (field : string)
  : Bufio.Writer * option Bufio.Err :=
  if negb (fieldNeedsQuotes comma field) then Bufio.WriteString b field
  else
    Bufio.bind (Bufio.WriteByte b dquote) (fun b =>
    Bufio.bind (write_quoted crlf (S (String.length field)) b field) (fun b =>
    Bufio.WriteByte b dquote)).

(** [for n, field := range record { ... }] *)
Fixpoint write_fields (comma : Z) (crlf : bool) (n : nat) (b : Bufio.Writer)
    (record : list string) : Bufio.Writer * option Bufio.Err :=
  match record with
  | [] => (b, None)
  | field :: rest =>
      Bufio.bind (if Nat.eqb n 0 then (b, None) else Bufio.WriteRune b comma) (fun b =>
      Bufio.bind (write_field comma crlf b field) (fun b =>
      write_fields comma crlf (S n) b rest))
  end.

(** [Writer.Write] *)
Definition Write (cw : Writer) (record : list string) : Writer * option WriteError :=
  if negb (validDelim (Comma cw)) then (cw, Some ErrInvalidDelim)
  else
    let '(b, e) :=
      Bufio.bind (write_fields (Comma cw) (UseCRLF cw) 0 (w cw) record) (fun b =>
        if UseCRLF cw then Bufio.WriteString b (char cr ++ char lf)
        else Bufio.WriteByte b lf) in
    (mkWriter (Comma cw) (UseCRLF cw) b, option_map IOError e).

(** [Writer.Error] *)
Definition Error (cw : Writer) : option Bufio.Err := Bufio.Write_nil (w cw).

(** The bytes a [Write] that meets no error emits. *)
Definition quote_char (crlf : bool) (c : ascii) : string :=
  if Ascii.eqb c dquote then char dquote ++ char dquote
  else if Ascii.eqb c cr then (if crlf then "" else char cr)
  else if Ascii.eqb c lf then (if crlf then char cr ++ char lf else char lf)
  else char c.

Fixpoint quote_body (crlf : bool) (s : string) : string :=
  match s with
  | EmptyString => EmptyString
  | String c s' => quote_char crlf c ++ quote_body crlf s'
  end.

Definition render_field (comma : Z) (crlf : bool) (field : string) : string :=
  if fieldNeedsQuotes comma field
  then char dquote ++ quote_body crlf field ++ char dquote
  else field.

(** The bytes [Writer.WriteRune] writes for the delimiter. *)
Definition delim (comma : Z) : string :=
  if comma <? Utf8.RuneSelf then char (Utf8.byte comma) else Utf8.EncodeRune comma.

Fixpoint render_fields (comma : Z) (crlf : bool) (n : nat) (record : list string) : string :=
  match record with
  | [] => ""
  | f :: rest =>
      (if Nat.eqb n 0 then "" else delim comma)
      ++ render_field comma crlf f ++ render_fields comma crlf (S n) rest
  end.

Definition terminator (crlf : bool) : string := if crlf then char cr ++ char lf else char lf.

Definition render_record (comma : Z) (crlf : bool) (record : list string) : string :=
  render_fields comma crlf 0 record ++ terminator crlf.

(** The bytes written through the writer: those its sink has taken,
    then those still buffered. *)
Definition contents (cw : Writer) : string :=
  Bufio.s_out (Bufio.wr (w cw)) ++ Bufio.buf (w cw).

(** [Writer.Flush] *)
Definition Flush (cw : Writer) : Writer :=
  mkWriter (Comma cw) (UseCRLF cw) (fst (Bufio.Flush (w cw))).

End Csv.

(* ================================================================== *)
(** ** Go's [time]: [time.Unix(sec, 0).UTC().Format(layout)]

    [Time.abs] wraps modulo [2^64] as Go's [uint64] does; the date of the
    absolute day is the proleptic Gregorian one, computed with the
    era/day-of-era decomposition.  The layout interpreter follows
    [nextStdChunk] and [AppendFormat] with every layout element. *)

Module GoTime.
Import Str.
Open Scope Z_scope.

Record Civil := mkCivil {
  year : Z; month : Z; day : Z; hour : Z; minute : Z; second : Z }.

(** Day number since 1970-01-01 to (year, month, day). *)
Definition civil_from_days (days : Z) : Z * Z * Z :=
  let z := days + 719468 in
  let era := z / 146097 in
  let doe := z - era * 146097 in
  let yoe := (doe - doe / 1460 + doe / 36524 - doe / 146096) / 365 in
  let y := yoe + era * 400 in
  let doy := doe - (365 * yoe + yoe / 4 - yoe / 100) in
  let mp := (5 * doy + 2) / 153 in
  let d := doy - (153 * mp + 2) / 5 + 1 in
  let m := if mp <? 10 then mp + 3 else mp - 9 in
  (if m <=? 2 then y + 1 else y, m, d).

Definition secondsPerDay : Z := 86400.
Definition unixToInternal : Z := 62135596800.
Definition internalToAbsolute : Z := 9223371966579724800.

(** [Time.abs] of [time.Unix(t, 0)] in UTC:
    [uint64(t + (unixToInternal + internalToAbsolute))], the sum taken
    on [int64] and converted to [uint64]; both wrap modulo [2^64]. *)
Definition abs (t : Z) : Z := (t + (unixToInternal + internalToAbsolute)) mod 2 ^ 64.

(** [time.Unix(t, 0).UTC()]: [absDate] and [absClock] of [abs t].  The
    absolute day [abs t / secondsPerDay] counts from January 1 of
    [absoluteZeroYear] (a year [= 1 mod 400]), which is
    [(unixToInternal + internalToAbsolute) / secondsPerDay] days before
    1970-01-01; the proleptic Gregorian date of the day is computed from
    its distance to 1970-01-01. *)
Definition utc (t : Z) : Civil :=
  let a := abs t in
  let '(y, m, d) :=
    civil_from_days (a / secondsPerDay
                     - (unixToInternal + internalToAbsolute) / secondsPerDay) in
  let s := a mod secondsPerDay in
  mkCivil y m d (s / 3600) ((s mod 3600) / 60) (s mod 60).

(** [absWeekday]: [(abs + uint64(Monday) * secondsPerDay) % secondsPerWeek
    / secondsPerDay], Sunday being 0; the [uint64] sum wraps. *)
Definition weekday (t : Z) : Z :=
  ((abs t + 1 * secondsPerDay) mod 2 ^ 64) mod 604800 / secondsPerDay.

(** Go's [appendInt(b, x, width)]: sign, then zero padding. *)
Definition appendInt (x : Z) (width : nat) : string :=
  (if x <? 0 then "-" else "") ++ pad_N width (Z.to_N (Z.abs x)).

Definition hour12 (h : Z) : Z := let hr := h mod 12 in if hr =? 0 then 12 else hr.

(** [Month.String] and [Weekday.String]. *)
Definition longMonthNames : list string :=
  ["January"; "February"; "March"; "April"; "May"; "June"; "July";
   "August"; "September"; "October"; "November"; "December"].

Definition longDayNames : list string :=
  ["Sunday"; "Monday"; "Tuesday"; "Wednesday"; "Thursday"; "Friday"; "Saturday"].

Definition Month_String (m : Z) : string :=
  if (1 <=? m) && (m <=? 12) then nth (Z.to_nat (m - 1)) longMonthNames ""
  else "%!Month(" ++ of_N (Z.to_N (m mod 2 ^ 64)) ++ ")".

(** [days[d]]; [absWeekday] only gives 0 to 6. *)
Definition Weekday_String (d : Z) : string := nth (Z.to_nat d) longDayNames "".

(** The layout elements of Go's [time] package ([std*] constants). *)
Inductive std :=
| stdLongMonth | stdMonth | stdNumMonth | stdZeroMonth
| stdLongWeekDay | stdWeekDay
| stdDay | stdUnderDay | stdZeroDay
| stdHour | stdHour12 | stdZeroHour12
| stdMinute | stdZeroMinute | stdSecond | stdZeroSecond
| stdLongYear | stdYear | stdPM | stdpm | stdTZ
| stdISO8601TZ | stdISO8601SecondsTZ | stdISO8601ShortTZ | stdISO8601ColonTZ
| stdISO8601ColonSecondsTZ
| stdNumTZ | stdNumSecondsTz | stdNumShortTZ | stdNumColonTZ | stdNumColonSecondsTZ
| stdFracSecond0 (n : nat) | stdFracSecond9 (n : nat).

(** [startsWithLowerCase] *)
Definition startsWithLowerCase (s : string) : bool :=
  match s with
  | String c _ => let n := nat_of_ascii c in ((97 <=? n) && (n <=? 122))%nat
  | EmptyString => false
  end.

(** [isDigit(s, 0)] *)
Definition isDigit0 (s : string) : bool :=
  match s with
  | String c _ => let n := nat_of_ascii c in ((48 <=? n) && (n <=? 57))%nat
  | EmptyString => false
  end.

(** The length of the run of [ch] at the start of [s]. *)
Fixpoint run (ch : ascii) (s : string) : nat :=
  match s with
  | String c s' => if Ascii.eqb c ch then S (run ch s') else O
  | EmptyString => O
  end.

(** The [switch] of [nextStdChunk] at position [i], [s] being
    [layout[i:]]: the element starting there, with what [nextStdChunk]
    returns before it ([""], or ["_"] for [_2006]) and the rest of the
    layout after it; [None] when no element starts at [i]. *)
Definition std_at (s : string) : option (string * std * string) :=
  match s with
  | String "J" _ =>
      if String.prefix "Jan" s then
        if String.prefix "January" s then Some ("", stdLongMonth, drop 7 s)
        else if negb (startsWithLowerCase (drop 3 s)) then Some ("", stdMonth, drop 3 s)
        else None
      else None
  | String "M" _ =>
      if String.prefix "Mon" s then
        if String.prefix "Monday" s then Some ("", stdLongWeekDay, drop 6 s)
        else if negb (startsWithLowerCase (drop 3 s)) then Some ("", stdWeekDay, drop 3 s)
        else None
      else if String.prefix "MST" s then Some ("", stdTZ, drop 3 s)
      else None
  | String "0" (String "1" rest) => Some ("", stdZeroMonth, rest)
  | String "0" (String "2" rest) => Some ("", stdZeroDay, rest)
  | String "0" (String "3" rest) => Some ("", stdZeroHour12, rest)
  | String "0" (String "4" rest) => Some ("", stdZeroMinute, rest)
  | String "0" (String "5" rest) => Some ("", stdZeroSecond, rest)
  | String "0" (String "6" rest) => Some ("", stdYear, rest)
  | String "1" (String "5" rest) => Some ("", stdHour, rest)
  | String "1" rest => Some ("", stdNumMonth, rest)
  | String "2" rest =>
      if String.prefix "2006" s then Some ("", stdLongYear, drop 4 s)
      else Some ("", stdDay, rest)
  | String "_" (String "2" rest) =>
      if String.prefix "2006" (String "2" rest) then Some ("_", stdLongYear, drop 3 rest)
      else Some ("", stdUnderDay, rest)
  | String "3" rest => Some ("", stdHour12, rest)
  | String "4" rest => Some ("", stdMinute, rest)
  | String "5" rest => Some ("", stdSecond, rest)
  | String "P" (String "M" rest) => Some ("", stdPM, rest)
  | String "p" (String "m" rest) => Some ("", stdpm, rest)
  | String "-" _ =>
      if String.prefix "-070000" s then Some ("", stdNumSecondsTz, drop 7 s)
      else if String.prefix "-07:00:00" s then Some ("", stdNumColonSecondsTZ, drop 9 s)
      else if String.prefix "-0700" s then Some ("", stdNumTZ, drop 5 s)
      else if String.prefix "-07:00" s then Some ("", stdNumColonTZ, drop 6 s)
      else if String.prefix "-07" s then Some ("", stdNumShortTZ, drop 3 s)
      else None
  | String "Z" _ =>
      if String.prefix "Z070000" s then Some ("", stdISO8601SecondsTZ, drop 7 s)
      else if String.prefix "Z07:00:00" s then Some ("", stdISO8601ColonSecondsTZ, drop 9 s)
      else if String.prefix "Z0700" s then Some ("", stdISO8601TZ, drop 5 s)
      else if String.prefix "Z07:00" s then Some ("", stdISO8601ColonTZ, drop 6 s)
      else if String.prefix "Z07" s then Some ("", stdISO8601ShortTZ, drop 3 s)
      else None
  | String "." (String ch rest) =>
      if Ascii.eqb ch "0" || Ascii.eqb ch "9" then
        let n := run ch (String ch rest) in
        let after := drop n (String ch rest) in
        if isDigit0 after then None
        else if Ascii.eqb ch "0" then Some ("", stdFracSecond0 n, after)
        else Some ("", stdFracSecond9 n, after)
      else None
  | _ => None
  end.

(** The zone of a [UTC] time: name ["UTC"], offset 0. *)
Definition zoneName : string := "UTC".
Definition zoneOffset : Z := 0.

Definition is_iso (s : std) : bool :=
  match s with
  | stdISO8601TZ | stdISO8601ColonTZ | stdISO8601SecondsTZ | stdISO8601ShortTZ
  | stdISO8601ColonSecondsTZ => true
  | _ => false
  end.

(** The numeric zone elements of [AppendFormat] for [offset]; Go's [/]
    and [%] truncate ([Z.quot], [Z.rem]). *)
Definition format_zone (s : std) (offset : Z) : string :=
  if (offset =? 0) && is_iso s then "Z"
  else
    let zone := Z.quot offset 60 in
    let sign := if zone <? 0 then "-" else "+" in
    let zone := Z.abs zone in
    let absoffset := Z.abs offset in
    sign ++ appendInt (Z.quot zone 60) 2
    ++ match s with
       | stdISO8601ColonTZ | stdNumColonTZ | stdISO8601ColonSecondsTZ
       | stdNumColonSecondsTZ => ":"
       | _ => ""
       end
    ++ match s with
       | stdNumShortTZ | stdISO8601ShortTZ => ""
       | _ => appendInt (Z.rem zone 60) 2
       end
    ++ match s with
       | stdISO8601SecondsTZ | stdNumSecondsTz => appendInt (Z.rem absoffset 60) 2
       | stdNumColonSecondsTZ | stdISO8601ColonSecondsTZ =>
           ":" ++ appendInt (Z.rem absoffset 60) 2
       | _ => ""
       end.

(** [formatNano(b, nanosec, n, trim)]: the nine digits of [nanosec],
    cut to [min n 9] and, when [trim], without trailing zeros. *)
Fixpoint digits (fuel : nat) (u : Z) (acc : string) : string :=
  match fuel with
  | O => acc
  | S f => digits f (u / 10) (String (ascii_of_N (Z.to_N (48 + u mod 10))) acc)
  end.

Fixpoint trim_n (n : nat) (buf : string) : nat :=
  match n with
  | O => O
  | S n' =>
      match String.get n' buf with
      | Some "0"%char => trim_n n' buf
      | _ => n
      end
  end.

Definition formatNano (nanosec : Z) (n : nat) (trim : bool) : string :=
  let buf := digits 9 nanosec "" in
  let n := Nat.min n 9 in
  let n := if trim then trim_n n buf else n in
  if trim && Nat.eqb n 0 then "" else "." ++ take n buf.

(** One element of [AppendFormat], for the date [c], the weekday [wd]
    and the nanoseconds [nanosec] ([0] for [time.Unix(t, 0)]). *)
Definition render (s : std) (c : Civil) (wd nanosec : Z) : string :=
  match s with
  | stdYear => appendInt (Z.rem (Z.abs (year c)) 100) 2
  | stdLongYear => appendInt (year c) 4
  | stdMonth => take 3 (Month_String (month c))
  | stdLongMonth => Month_String (month c)
  | stdNumMonth => appendInt (month c) 0
  | stdZeroMonth => appendInt (month c) 2
  | stdWeekDay => take 3 (Weekday_String wd)
  | stdLongWeekDay => Weekday_String wd
  | stdDay => appendInt (day c) 0
  | stdUnderDay => (if day c <? 10 then " " else "") ++ appendInt (day c) 0
  | stdZeroDay => appendInt (day c) 2
  | stdHour => appendInt (hour c) 2
  | stdHour12 => appendInt (hour12 (hour c)) 0
  | stdZeroHour12 => appendInt (hour12 (hour c)) 2
  | stdMinute => appendInt (minute c) 0
  | stdZeroMinute => appendInt (minute c) 2
  | stdSecond => appendInt (second c) 0
  | stdZeroSecond => appendInt (second c) 2
  | stdPM => if 12 <=? hour c then "PM" else "AM"
  | stdpm => if 12 <=? hour c then "pm" else "am"
  | stdTZ => zoneName
  | stdFracSecond0 n => formatNano nanosec n false
  | stdFracSecond9 n => formatNano nanosec n true
  | _ => format_zone s zoneOffset
  end.

(** [AppendFormat]: [nextStdChunk] finds the first position where an
    element starts; the bytes before it are copied.  Every step consumes
    at least one byte of the layout, so the fuel [S (len(layout))] is
    never exhausted. *)
Fixpoint format_from (fuel : nat) (c : Civil) (wd : Z) (layout : string) : string :=
  match fuel with
  | O => layout
  | S f =>
      match layout with
      | EmptyString => EmptyString
      | String ch rest =>
          match std_at layout with
          | Some (pre, s, suffix) => pre ++ render s c wd 0 ++ format_from f c wd suffix
          | None => String ch (format_from f c wd rest)
          end
      end
  end.

Definition format (c : Civil) (wd : Z) (layout : string) : string :=
  format_from (S (String.length layout)) c wd layout.

(** [time.Unix(t, 0).UTC().Format(layout)] *)
Definition FormatUnix (layout : string) (t : Z) : string := format (utc t) (weekday t) layout.

End GoTime.

(* ================================================================== *)
(** ** Floating point numbers

    The code computes with [float64]; the development is generic in the
    number type and its operations, which appear in the same order as in
    the code.  [FormatFloat] is [strconv.FormatFloat(x, 'f', -1, 64)].
    Concrete inputs are evaluated with the exact rationals, whose values
    coincide with the [float64] ones on the inputs used below. *)

Class FloatModel (F : Type) := {
  f_of_Z : Z -> F;
  fadd : F -> F -> F;
  fdiv : F -> F -> F;
  FormatFloat : F -> string
}.

Module QFloat.
Import Str.
Open Scope Z_scope.

(** Digits after the decimal point of [r / d] (with [0 <= r < d]). *)
Fixpoint frac_digits (fuel : nat) (r d : Z) : string :=
  match fuel with
  | O => ""
  | S fuel' =>
      if r =? 0 then ""
      else of_Z ((r * 10) / d) ++ frac_digits fuel' ((r * 10) mod d) d
  end.

(** Shortest decimal rendering of a terminating decimal. *)
Definition format_Q (q : Q) : string :=
  let n := Qnum q in
  let d := Zpos (Qden q) in
  let a := Z.abs n in
  (if n <? 0 then "-" else "") ++ of_Z (a / d)
  ++ (if a mod d =? 0 then "" else "." ++ frac_digits 40 (a mod d) d).

End QFloat.

#[export] Instance Q_FloatModel : FloatModel Q := {
  f_of_Z := inject_Z;
  fadd := Qplus;
  fdiv := Qdiv;
  FormatFloat := QFloat.format_Q
}.

(* ================================================================== *)
(** ** [plugins/s3/csv.go] *)

Module S3.
Import Str.

(** [samplers.MetricType]: the two types the encoder handles, and any
    other value of the Go integer type.  The field [Type] is named
    [Type_] ([Type] is a keyword). *)
Inductive MetricType := CounterMetric | GaugeMetric | OtherMetricType (code : Z).

(** The fields of [samplers.InterMetric] that the encoder reads. *)
Record InterMetric (F : Type) := mkInterMetric {
  Name : string;
  Timestamp : Z;
  Value : F;
  Tags : list string;
  Type_ : MetricType
}.
Arguments mkInterMetric {F}.
Arguments Name {F}. Arguments Timestamp {F}. Arguments Value {F}.
Arguments Tags {F}. Arguments Type_ {F}.

(** The error returned: for an unknown type, carrying the type it names
    (["Encountered an unknown metric type %s"]); or [w.Error()], the
    error of the writer's [bufio.Writer]. *)
Inductive EncodeError := UnknownMetricType (t : MetricType) | WriterError (e : Bufio.Err).

(** A call returns the writer after it and the error ([None] is [nil]),
    or panics. *)
Inductive Outcome := Returned (w : Csv.Writer) (e : option EncodeError) | Panicked.

Definition PartitionDateFormat : string := "20060102".

(** [type tsvField int] and its [iota] constants. *)
Inductive tsvField :=
  TsvName | TsvTags | TsvMetricType | TsvVeneurHostname | TsvInterval
| TsvTimestamp | TsvValue | TsvPartition.

Definition tsvField_iota (f : tsvField) : nat :=
  match f with
  | TsvName => 0 | TsvTags => 1 | TsvMetricType => 2 | TsvVeneurHostname => 3
  | TsvInterval => 4 | TsvTimestamp => 5 | TsvValue => 6 | TsvPartition => 7
  end.

(** A keyed Go array literal [[...]string{k1: v1, ...}]: its length is
    the largest key plus one, and every index without a key holds [""]. *)
Definition keyed_array (entries : list (tsvField * string)) : list string :=
  let len := S (fold_right (fun '(k, _) m => Nat.max (tsvField_iota k) m) 0%nat entries) in
  map (fun i =>
         match find (fun '(k, _) => Nat.eqb (tsvField_iota k) i) entries with
         | Some (_, v) => v
         | None => ""
         end) (seq 0 len).

Section Encode.
Context {F : Type} `{FloatModel F}.

(** [EncodeInterMetricCSV d w partitionDate hostName interval timeFormat tags].
    [partitionDate] is the [*time.Time], as Unix seconds, or [None] for
    [nil]: the call then panics when it evaluates
    [partitionDate.UTC()], after the type switch.  The result of
    [w.Write] is dropped; the call returns [w.Error()]. *)
Definition EncodeInterMetricCSV (d : InterMetric F) (w : Csv.Writer)
    (partitionDate : option Z) (hostName : string) (interval : F)
    (timeFormat : string) (tags : list string) : Outcome :=
  let allTags := (tags ++ Tags d)%list in
  let jsonTags := "{" ++ join "," allTags ++ "}" in
  let typed :=
    match Type_ d with
    | CounterMetric => Some (fdiv (Value d) interval, "rate")
    | GaugeMetric => Some (Value d, "gauge")
    | OtherMetricType _ => None
    end in
  match typed with
  | None => Returned w (Some (UnknownMetricType (Type_ d)))
  | Some (metricValue, metricType) =>
      match partitionDate with
      | None => Panicked
      | Some p =>
          let fields := keyed_array [
            (TsvName, Name d);
            (TsvTags, jsonTags);
            (TsvMetricType, metricType);
            (TsvInterval, FormatFloat interval);
            (TsvVeneurHostname, hostName);
            (TsvValue, FormatFloat metricValue);
            (TsvTimestamp, GoTime.FormatUnix timeFormat (Timestamp d));
            (TsvPartition, GoTime.FormatUnix PartitionDateFormat p)] in
          let w := fst (Csv.Write w fields) in
          Returned w (option_map WriterError (Csv.Error w))
      end
  end.

End Encode.
End S3.

(* ================================================================== *)
(** ** [plugins/s3/csv.go]: the TSV schema *)

Module S3Schema.
Import Str S3.

(** [strings.Replace(s, old, new, 1)]: the first occurrence of [old]
    replaced by [new] (an empty [old] matches at the start). *)
Fixpoint replace_first (old new s : string) : string :=
  if String.prefix old s
  then new ++ substring (String.length old) (String.length s - String.length old) s
  else match s with
       | EmptyString => EmptyString
       | String c s' => String c (replace_first old new s')
       end.

(** [fmt.Sprintf(format)] with no arguments: [%%] writes [%], any other
    verb writes [%!v(MISSING)] for its verb letter [v], a final [%] writes
    [%!(NOVERB)]; other bytes are copied.  (Flags, width and precision
    between [%] and the verb are not modelled.) *)
Fixpoint Sprintf (format : string) : string :=
  match format with
  | EmptyString => EmptyString
  | String "%" EmptyString => "%!(NOVERB)"
  | String "%" (String "%" rest) => String "%" (Sprintf rest)
  | String "%" (String v rest) => "%!" ++ String v "(MISSING)" ++ Sprintf rest
  | String c rest => String c (Sprintf rest)
  end.

(** [var tsvSchema = [...]string{...}], keys in the order of the source. *)
Definition tsvSchema : list string :=
  keyed_array [
    (TsvName, "Name");
    (TsvTags, "Tags");
    (TsvMetricType, "MetricType");
    (TsvInterval, "Interval");
    (TsvVeneurHostname, "VeneurHostname");
    (TsvTimestamp, "Timestamp");
    (TsvValue, "Value");
    (TsvPartition, "Partition")].

(** [func (f tsvField) String() string] *)
Definition tsvField_String (f : tsvField) : string :=
  Sprintf (replace_first "tsv" "" (nth (tsvField_iota f) tsvSchema "")).

(** A Go [map[string]int] as an association list; [map_insert] replaces
    the entry of the key. *)
Definition StrIntMap := list (string * nat).

Definition map_insert (k : string) (v : nat) (m : StrIntMap) : StrIntMap :=
  (k, v) :: filter (fun '(k', _) => negb (String.eqb k k')) m.

Fixpoint map_lookup (k : string) (m : StrIntMap) : option nat :=
  match m with
  | [] => None
  | (k', v) :: m' => if String.eqb k k' then Some v else map_lookup k m'
  end.

(** [init]: [for i, field := range tsvSchema { tsvMapping[field] = i }]
    starting from the empty map. *)
Definition tsvMapping : StrIntMap :=
  fst (fold_left (fun '(m, i) field => (map_insert field i m, S i)) tsvSchema ([], 0%nat)).

(** The constants of [tsvField], in [iota] order. *)
Definition all_tsvFields : list tsvField :=
  [TsvName; TsvTags; TsvMetricType; TsvVeneurHostname; TsvInterval;
   TsvTimestamp; TsvValue; TsvPartition].

End S3Schema.

(* ================================================================== *)
(** ** Reading a row back

    A reader for rows whose fields hold no delimiter: the row is split at
    each delimiter, and a field that starts with a double quote is read
    as a quoted field (doubled quotes stand for one, the closing quote
    ends it). *)

Module CsvRead.
Import Str.




End CsvRead.

(* ================================================================== *)
(** ** The proleptic Gregorian calendar, for stating properties of
    [GoTime.utc] *)

Module Calendar.
Open Scope Z_scope.

Definition is_leap (y : Z) : bool :=
  ((y mod 4 =? 0) && negb (y mod 100 =? 0)) || (y mod 400 =? 0).

Definition days_in_month (y m : Z) : Z :=
  if m =? 2 then (if is_leap y then 29 else 28)
  else if (m =? 4) || (m =? 6) || (m =? 9) || (m =? 11) then 30 else 31.

(** The calendar day after [(y, m, d)]. *)
Definition next_date (c : Z * Z * Z) : Z * Z * Z :=
  let '(y, m, d) := c in
  if d <? days_in_month y m then (y, m, d + 1)
  else if m <? 12 then (y, m + 1, 1) else (y + 1, 1, 1).

Definition date_of (c : GoTime.Civil) : Z * Z * Z :=
  (GoTime.year c, GoTime.month c, GoTime.day c).

(** The decomposition [civil_from_days] uses: the year of era of a day
    of era, the first day of a year of era, and the date of a day of a
    March-based year whose March falls in year [y0]. *)
Definition yoe_of (doe : Z) : Z := (doe - doe / 1460 + doe / 36524 - doe / 146096) / 365.

Definition ystart (k : Z) : Z := 365 * k + k / 4 - k / 100.

Definition Tdate (y0 doy : Z) : Z * Z * Z :=
  let mp := (5 * doy + 2) / 153 in
  let d := doy - (153 * mp + 2) / 5 + 1 in
  let m := if mp <? 10 then mp + 3 else mp - 9 in
  (if m <=? 2 then y0 + 1 else y0, m, d).

End Calendar.

(* ================================================================== *)
(** ** Reading the partition name back *)

Module Decode.
Open Scope Z_scope.

(** Value of a string of decimal digits (leading zeros allowed). *)
Definition dec (s : string) : N :=
  match NilEmpty.uint_of_string s with Some u => N.of_uint u | None => 0%N end.

(** Value of an optionally signed string of decimal digits. *)
Definition decZ (s : string) : Z :=
  match s with
  | String c r => if Ascii.eqb c "-" then - Z.of_N (dec r) else Z.of_N (dec s)
  | EmptyString => 0
  end.

(** Date key: increasing in the calendar order of valid dates. *)
Definition key (c : Z * Z * Z) : Z := let '(y, m, d) := c in y * 512 + m * 32 + d.

Fixpoint all_upto (f : Z -> bool) (n : nat) (s : Z) : bool :=
  match n with O => true | S k => f s && all_upto f k (s + 1) end.

End Decode.

(* ================================================================== *)
(** ** Samplers

    Only the tests of the [samplers] package are in the sources; the
    aggregators and [DDMetric.EncodeCSV] they exercise are modelled from
    the spec (sections 3, 4.2 and 8). *)

Module Samplers.
Import Str.

Section Generic.
Context {F : Type} `{FloatModel F}.

(** Modelled from the spec: the output metric [DDMetric] (section 3):
    name, one (timestamp, value) pair, tags, metric type, hostname,
    device name and interval.  The timestamp of the pair is kept in whole
    Unix seconds. *)
Record DDMetric := mkDDMetric {
  Name : string;
  Value : Z * F;
  Tags : list string;
  MetricType : string;
  Hostname : string;
  DeviceName : string;
  Interval : Z
}.

(** Modelled from the spec: the counter (sections 3 and 4.2).  [Sample]
    adds [value / sample_rate] to [sum]; [Flush] emits one rate-typed
    metric [sum / interval_seconds] whose interval is the flush interval
    in seconds.  [now] is the flush time. *)
Record Counter := mkCounter { CName : string; CTags : list string; sum : F }.

Definition NewCounter (name : string) (tags : list string) : Counter :=
  mkCounter name tags (f_of_Z 0).

Definition CounterSample (c : Counter) (sample rate : F) : Counter :=
  mkCounter (CName c) (CTags c) (fadd (sum c) (fdiv sample rate)).

Definition CounterFlush (c : Counter) (interval now : Z) : list DDMetric :=
  [mkDDMetric (CName c) (now, fdiv (sum c) (f_of_Z interval)) (CTags c)
     "rate" "" "" interval].

(** Modelled from the spec: the gauge (sections 3 and 4.2), last writer
    wins; [Flush] emits one gauge-typed metric with interval 0. *)
Record Gauge := mkGauge { GName : string; GTags : list string; last : F }.

Definition NewGauge (name : string) (tags : list string) : Gauge :=
  mkGauge name tags (f_of_Z 0).

Definition GaugeSample (g : Gauge) (sample rate : F) : Gauge :=
  mkGauge (GName g) (GTags g) sample.

Definition GaugeFlush (g : Gauge) (now : Z) : list DDMetric :=
  [mkDDMetric (GName g) (now, last g) (GTags g) "gauge" "" "" 0].

(** A sequence of samples (value, sample rate) fed to an aggregator. *)
Definition counter_run (c : Counter) (samples : list (F * F)) : Counter :=
  fold_left (fun c '(v, r) => CounterSample c v r) samples c.

Definition gauge_run (g : Gauge) (samples : list (F * F)) : Gauge :=
  fold_left (fun g '(v, r) => GaugeSample g v r) samples g.

(** The timestamp layout of [DDMetric.EncodeCSV]: the one the expected
    rows of [CSVTestCases] are written in, where the instant 1476119058
    (17:04:18 UTC) appears as [05:04:18], the 12-hour-clock element [03]. *)
Definition DDMetricTimeFormat : string := "2006-01-02 03:04:05".

(** Modelled from the spec: [DDMetric.EncodeCSV w partitionDate hostName]
    (section 8, scenario 6, and the rows of [CSVTestCases]): name, tags as
    [{t1,t2,...}], metric type, the metric's hostname, the hostname
    override, device name, interval, timestamp, value and the partition
    date [20060102] of [partitionDate] (Unix seconds), written as one
    record of the writer; it returns [w.Error()]. *)
Definition EncodeCSV (d : DDMetric) (w : Csv.Writer) (partitionDate : Z)
    (hostName : string) : Csv.Writer * option Bufio.Err :=
  let fields := [
    Name d;
    "{" ++ join "," (Tags d) ++ "}";
    MetricType d;
    Hostname d;
    hostName;
    DeviceName d;
    of_Z (Interval d);
    GoTime.FormatUnix DDMetricTimeFormat (fst (Value d));
    FormatFloat (snd (Value d));
    GoTime.FormatUnix S3.PartitionDateFormat partitionDate] in
  let w := fst (Csv.Write w fields) in
  (w, Csv.Error w).

End Generic.
Arguments DDMetric F : clear implicits.
Arguments Counter F : clear implicits.
Arguments Gauge F : clear implicits.

(** Modelled from the spec: the histogram's state (sections 3 and 4.2),
    over exact rationals.  The reservoir holds (priority, value, weight)
    entries and keeps the [ReservoirSize] highest priorities; the
    priority [exp(alpha (t - t0)) rand()] of a sample is an input of
    [HistSample].  The per-interval local stats are the weight (sum of
    [1/sample_rate]), min, max and sum. *)
Inductive ExtQ := NegInf | Fin (q : Q) | PosInf.

Definition ext_min (a b : ExtQ) : ExtQ :=
  match a, b with
  | NegInf, _ | _, NegInf => NegInf
  | PosInf, x | x, PosInf => x
  | Fin x, Fin y => if Qle_bool x y then Fin x else Fin y
  end.

Definition ext_max (a b : ExtQ) : ExtQ :=
  match a, b with
  | PosInf, _ | _, PosInf => PosInf
  | NegInf, x | x, NegInf => x
  | Fin x, Fin y => if Qle_bool x y then Fin y else Fin x
  end.

Definition ReservoirSize : nat := 1028.

Definition Entry : Type := Q * Q * Q.

Record Histo := mkHisto {
  HName : string;
  HTags : list string;
  Reservoir : list Entry;
  LocalWeight : Q;
  LocalMin : ExtQ;
  LocalMax : ExtQ;
  LocalSum : Q
}.

Definition NewHist (name : string) (tags : list string) : Histo :=
  mkHisto name tags [] 0 PosInf NegInf 0.

(** Removes the first entry of lowest priority. *)
Fixpoint remove_entry (e : Entry) (l : list Entry) : list Entry :=
  match l with
  | [] => []
  | x :: rest =>
      let '(p, _, _) := x in let '(pe, _, _) := e in
      if Qeq_bool p pe then rest else x :: remove_entry e rest
  end.

Definition lowest (l : list Entry) : option Entry :=
  fold_left (fun acc x =>
    match acc with
    | None => Some x
    | Some y => let '(px, _, _) := x in let '(py, _, _) := y in
                if Qlt_le_dec px py then Some x else Some y
    end) l None.

(** Adds an entry; when the reservoir exceeds its size the entry of
    lowest priority is evicted. *)
Definition reservoir_insert (l : list Entry) (e : Entry) : list Entry :=
  let l' := e :: l in
  if Nat.ltb ReservoirSize (List.length l') then
    match lowest l' with Some m => remove_entry m l' | None => l' end
  else l'.

Definition HistSample (h : Histo) (sample rate priority : Q) : Histo :=
  mkHisto (HName h) (HTags h)
    (reservoir_insert (Reservoir h) (priority, sample, / rate))
    (LocalWeight h + / rate)
    (ext_min (Fin sample) (LocalMin h))
    (ext_max (Fin sample) (LocalMax h))
    (LocalSum h + sample * / rate).

(** [export()]: the reservoir snapshot. *)
Definition HistExport (h : Histo) : list Entry := Reservoir h.

(** [combine(snapshot)]: merges the reservoir only. *)
Definition HistCombine (h : Histo) (snapshot : list Entry) : Histo :=
  mkHisto (HName h) (HTags h)
    (fold_left reservoir_insert snapshot (Reservoir h))
    (LocalWeight h) (LocalMin h) (LocalMax h) (LocalSum h).

(** The state a flush leaves: per-interval stats reset, reservoir kept. *)
Definition HistFlushReset (h : Histo) : Histo :=
  mkHisto (HName h) (HTags h) (Reservoir h) 0 PosInf NegInf 0.

Inductive HistOp :=
| OpSample (sample rate priority : Q)
| OpCombine (snapshot : list Entry)
| OpExport
| OpFlush.

Definition hist_step (h : Histo) (op : HistOp) : Histo :=
  match op with
  | OpSample v r p => HistSample h v r p
  | OpCombine s => HistCombine h s
  | OpExport => h
  | OpFlush => HistFlushReset h
  end.

Definition hist_run (h : Histo) (ops : list HistOp) : Histo :=
  fold_left hist_step ops h.

Definition is_sample (op : HistOp) : bool :=
  match op with OpSample _ _ _ => true | _ => false end.

Definition locals_neutral (h : Histo) : Prop :=
  LocalWeight h == 0 /\ LocalMin h = PosInf /\ LocalMax h = NegInf.

End Samplers.


Module StrFacts.
Import Str.

Lemma app_assoc_s (a b c : string) : a ++ (b ++ c) = (a ++ b) ++ c.
Proof. induction a as [|x a IH]; simpl; [reflexivity | now rewrite IH]. Qed.

Lemma app_nil_r_s (a : string) : a ++ "" = a.
Proof. induction a as [|x a IH]; simpl; [reflexivity | now rewrite IH]. Qed.

Lemma length_app_s (a b : string) : String.length (a ++ b) = (String.length a + String.length b)%nat.
Proof. induction a as [|x a IH]; simpl; [reflexivity | now rewrite IH]. Qed.

Lemma take_drop (n : nat) (s : string) : take n s ++ drop n s = s.
Proof. revert s; induction n as [|n IH]; intros [|c s]; simpl; try reflexivity. now rewrite IH. Qed.

Lemma take_all (n : nat) (s : string) : (String.length s <= n)%nat -> take n s = s.
Proof.
  revert s; induction n as [|n IH]; intros [|c s]; simpl; intros H; try reflexivity; try lia.
  rewrite IH by lia. reflexivity.
Qed.

Lemma take_empty (n : nat) : take n "" = "".
Proof. destruct n; reflexivity. Qed.

Lemma length_drop (n : nat) (s : string) :
  String.length (drop n s) = (String.length s - n)%nat.
Proof. revert s; induction n as [|n IH]; intros [|c s]; simpl; try reflexivity; try lia. apply IH. Qed.

Lemma length_take (n : nat) (s : string) :
  String.length (take n s) = Nat.min n (String.length s).
Proof. revert s; induction n as [|n IH]; intros [|c s]; simpl; try reflexivity. now rewrite IH. Qed.

Lemma take_app_le (k : nat) (x y : string) :
  (k <= String.length x)%nat -> take k (x ++ y) = take k x.
Proof.
  revert x; induction k as [|k IH]; intros [|c x]; simpl; intros H; try reflexivity; try lia.
  rewrite IH by lia. reflexivity.
Qed.

Lemma take_app_ge (k : nat) (x y : string) :
  take (String.length x + k) (x ++ y) = x ++ take k y.
Proof. induction x as [|c x IH]; simpl; [reflexivity | now rewrite IH]. Qed.

Lemma take_min (k : nat) (x : string) : take k x = take (Nat.min k (String.length x)) x.
Proof.
  revert x; induction k as [|k IH]; intros [|c x]; simpl; try reflexivity.
  now rewrite IH.
Qed.

Lemma drop_drop (a b : nat) (s : string) : drop b (drop a s) = drop (a + b) s.
Proof.
  revert s; induction a as [|a IH]; intros [|c s]; simpl; try reflexivity.
  - destruct b; reflexivity.
  - apply IH.
Qed.

Lemma take_add (a b : nat) (s : string) : take a s ++ take b (drop a s) = take (a + b) s.
Proof.
  revert s; induction a as [|a IH]; intros [|c s]; simpl; try reflexivity.
  - now rewrite take_empty.
  - now rewrite IH.
Qed.

(** A prefix of [x] is a prefix of [x ++ y]. *)
Lemma take_prefix (k : nat) (x y : string) :
  exists k', take k x = take k' (x ++ y).
Proof.
  exists (Nat.min k (String.length x)). rewrite take_min, take_app_le by lia. reflexivity.
Qed.

End StrFacts.

Module BufioFacts.
Import Str StrFacts Bufio.

Definition contents (b : Writer) : string := s_out (wr b) ++ buf b.

(** [op] writes [bytes]: it keeps the size; on a writer in error it
    changes nothing; otherwise it returns the error it leaves; it adds a
    prefix of [bytes], all of them when no error is left; and over a sink
    that never fails no error arises. *)
Definition Writes (op : Writer -> Writer * option Err) (bytes : string) : Prop :=
  forall b, (0 < size b)%nat ->
    size (fst (op b)) = size b
    /\ (err b <> None -> fst (op b) = b)
    /\ (err b = None -> snd (op b) = err (fst (op b)))
    /\ (exists k, contents (fst (op b)) = contents b ++ take k bytes)
    /\ (err (fst (op b)) = None -> contents (fst (op b)) = contents b ++ bytes)
    /\ (s_room (wr b) = None -> s_room (wr (fst (op b))) = None /\ err (fst (op b)) = err b).

Lemma Writes_ret : Writes (fun b => (b, None)) "".
Proof.
  intros b Hs; cbn [fst snd].
  repeat split; auto.
  - exists 0%nat. now rewrite app_nil_r_s.
  - now rewrite app_nil_r_s.
Qed.

Ltac six := refine (conj _ (conj _ (conj _ (conj _ (conj _ _))))).

Lemma Writes_bind (op1 : Writer -> Writer * option Err) (x : string)
    (op2 : Writer -> Writer * option Err) (y : string) :
  Writes op1 x -> Writes op2 y -> Writes (fun b => bind (op1 b) op2) (x ++ y).
Proof.
  intros W1 W2 b Hs.
  destruct (W1 b Hs) as (S1 & E1 & R1 & [k1 K1] & F1 & N1).
  destruct (op1 b) as [b1 e1] eqn:Hop1. cbn [fst snd] in *.
  destruct e1 as [e1|]; cbn [bind fst snd].
  - six.
    + exact S1.
    + exact E1.
    + exact R1.
    + destruct (take_prefix k1 x y) as [k' Hk']. exists k'. now rewrite K1, Hk'.
    + intros Hb. exfalso. destruct (err b) eqn:Eb.
      * specialize (E1 ltac:(discriminate)). subst b1. congruence.
      * specialize (R1 eq_refl). congruence.
    + exact N1.
  - destruct (err b) as [eb|] eqn:Eb.
    + assert (Hb1 : b1 = b) by (apply E1; discriminate). subst b1.
      destruct (W2 b Hs) as (S2 & E2 & R2 & _ & _ & N2).
      rewrite (E2 ltac:(rewrite Eb; discriminate)).
      six; try congruence.
      * exists 0%nat. cbn. now rewrite app_nil_r_s.
      * intros Hr. split; [exact Hr|congruence].
    + assert (Eb1 : err b1 = None) by (symmetry; apply R1; reflexivity).
      specialize (F1 Eb1).
      destruct (W2 b1 ltac:(lia)) as (S2 & E2 & R2 & [k2 K2] & F2 & N2).
      six.
      * lia.
      * congruence.
      * intros _. apply R2. exact Eb1.
      * exists (String.length x + k2)%nat. rewrite K2, F1, take_app_ge.
        now rewrite app_assoc_s.
      * intros Hn. rewrite (F2 Hn), F1. now rewrite app_assoc_s.
      * intros Hr. destruct (N1 Hr) as [A _]. destruct (N2 A) as [B C].
        split; [exact B | congruence].
Qed.

Ltac wfin :=
  try reflexivity; try discriminate;
  try (intros H; discriminate H);
  try (intros H; exfalso; apply H; reflexivity);
  try (intros H; split; [exact H | reflexivity]);
  try (intros _; split; reflexivity);
  try (intros _; unfold contents; cbn [s_out wr buf]; rewrite ?app_nil_r_s; reflexivity);
  try (exists 0%nat; unfold contents; cbn [s_out wr buf]; rewrite ?take_empty, ?app_nil_r_s; reflexivity).

Lemma Flush_spec : Writes Flush "".
Proof.
  intros [e bf sz [o rm]] Hs. unfold Flush, Buffered. cbn [err buf size wr].
  destruct e as [e|]; cbn [fst snd err buf size wr s_out s_room].
  { six; wfin. }
  destruct (Nat.eqb (String.length bf) 0) eqn:E0; cbn [fst snd err buf size wr s_out s_room].
  { six; wfin. }
  unfold sink_write; cbn [s_room s_out].
  destruct rm as [k|].
  - destruct (String.length bf <=? k)%nat eqn:Ek.
    + rewrite Nat.ltb_irrefl. cbn [fst snd err buf size wr s_out s_room].
      six; wfin.
    + cbn [fst snd err buf size wr s_out s_room].
      six; wfin.
      exists 0%nat. unfold contents; cbn [s_out wr buf].
      rewrite take_empty, <- !app_assoc_s, take_drop. now rewrite app_nil_r_s.
  - rewrite Nat.ltb_irrefl. cbn [fst snd err buf size wr s_out s_room].
    six; wfin.
Qed.

Lemma Flush_ok (b : Writer) :
  err (fst (Flush b)) = None -> buf (fst (Flush b)) = "".
Proof.
  destruct b as [e bf sz [o rm]]. unfold Flush, Buffered. cbn [err buf size wr].
  destruct e as [e|]; [cbn; discriminate|].
  destruct (Nat.eqb (String.length bf) 0) eqn:E0.
  { cbn. intros _. apply Nat.eqb_eq in E0. destruct bf; [reflexivity|discriminate]. }
  unfold sink_write; cbn [s_room s_out].
  destruct rm as [k|].
  - destruct (String.length bf <=? k)%nat; [rewrite Nat.ltb_irrefl|]; cbn; congruence.
  - rewrite Nat.ltb_irrefl. cbn. reflexivity.
Qed.

Lemma with_buf_contents (b : Writer) (s : string) :
  contents (with_buf b (buf b ++ s)) = contents b ++ s.
Proof. unfold contents, with_buf. cbn. now rewrite app_assoc_s. Qed.

Lemma Writes_stuck (op : Writer -> Writer * option Err) (bytes : string) (b : Writer) (e : Err) :
  err b = Some e -> op b = (b, Some e) ->
  size (fst (op b)) = size b
  /\ (err b <> None -> fst (op b) = b)
  /\ (err b = None -> snd (op b) = err (fst (op b)))
  /\ (exists k, contents (fst (op b)) = contents b ++ take k bytes)
  /\ (err (fst (op b)) = None -> contents (fst (op b)) = contents b ++ bytes)
  /\ (s_room (wr b) = None -> s_room (wr (fst (op b))) = None /\ err (fst (op b)) = err b).
Proof.
  intros Eb Hop. rewrite Hop. cbn [fst snd]. six.
  - reflexivity.
  - intros _; reflexivity.
  - intros H; congruence.
  - exists 0%nat. cbn [take]. now rewrite app_nil_r_s.
  - intros H; congruence.
  - intros H; split; [exact H | reflexivity].
Qed.

Lemma with_buf_size (b : Writer) (s : string) : size (with_buf b s) = size b.
Proof. reflexivity. Qed.

Lemma with_buf_err (b : Writer) (s : string) : err (with_buf b s) = err b.
Proof. reflexivity. Qed.

Lemma with_buf_wr (b : Writer) (s : string) : wr (with_buf b s) = wr b.
Proof. reflexivity. Qed.

(** Appending [s] to the buffer of a writer with no error. *)
Lemma Writes_append (b0 b : Writer) (s : string) :
  size b = size b0 -> err b = None -> contents b = contents b0 ->
  (s_room (wr b0) = None -> s_room (wr b) = None /\ err b = err b0) ->
  err b0 = None ->
  size (with_buf b (buf b ++ s)) = size b0
  /\ (err b0 <> None -> with_buf b (buf b ++ s) = b0)
  /\ (err b0 = None -> None = err (with_buf b (buf b ++ s)))
  /\ (exists k, contents (with_buf b (buf b ++ s)) = contents b0 ++ take k s)
  /\ (err (with_buf b (buf b ++ s)) = None -> contents (with_buf b (buf b ++ s)) = contents b0 ++ s)
  /\ (s_room (wr b0) = None -> s_room (wr (with_buf b (buf b ++ s))) = None
                               /\ err (with_buf b (buf b ++ s)) = err b0).
Proof.
  intros Sz Eb Cb Nb E0. six.
  - rewrite with_buf_size. exact Sz.
  - intros H; congruence.
  - intros _. rewrite with_buf_err. congruence.
  - exists (String.length s). rewrite with_buf_contents, Cb, take_all; [reflexivity | lia].
  - intros _. rewrite with_buf_contents, Cb. reflexivity.
  - intros Hr. rewrite with_buf_wr, with_buf_err. destruct (Nb Hr) as [A _].
    split; congruence.
Qed.

Lemma WriteByte_spec (c : ascii) : Writes (fun b => WriteByte b c) (char c).
Proof.
  intros b Hs.
  destruct (err b) as [e|] eqn:Eb in Hs.
  { apply (Writes_stuck (fun b => WriteByte b c) _ b e Eb). unfold WriteByte. now rewrite Eb. }
  destruct (Flush_spec b Hs) as (S1 & _ & R1 & [k1 K1] & _ & N1).
  specialize (R1 Eb).
  assert (K1' : contents (fst (Flush b)) = contents b)
    by (rewrite K1, take_empty; apply app_nil_r_s).
  assert (HW : WriteByte b c =
    let '(b, e) := if Nat.eqb (Available b) 0 then Flush b else (b, None) in
    match e with
    | Some _ => (b, err b)
    | None => (with_buf b (buf b ++ char c), None)
    end) by (unfold WriteByte; rewrite Eb; reflexivity).
  rewrite HW.
  destruct (Nat.eqb (Available b) 0).
  - destruct (Flush b) as [b1 e1] eqn:Hf. cbn [fst snd] in *.
    destruct e1 as [e1|]; cbn [fst snd].
    + six.
      * exact S1.
      * intros H; congruence.
      * intros _; reflexivity.
      * exists 0%nat. cbn [take]. now rewrite K1', app_nil_r_s.
      * intros H; congruence.
      * intros Hr. destruct (N1 Hr) as [A B]. split; congruence.
    + apply Writes_append; try assumption; congruence.
  - cbn [fst snd]. apply Writes_append; try reflexivity; try assumption.
    intros Hr; split; [exact Hr | reflexivity].
Qed.

Lemma loop_spec (fuel : nat) : forall (b : Writer) (s : string), (0 < size b)%nat ->
  let r := writeString_loop fuel b s in
  size (fst r) = size b
  /\ (err b <> None -> r = (b, s))
  /\ (exists k, contents (fst r) = contents b ++ take k s /\ snd r = drop k s)
  /\ (s_room (wr b) = None -> s_room (wr (fst r)) = None /\ err (fst r) = err b)
  /\ ((String.length s <= Available b \/ String.length s - Available b < fuel)%nat ->
      err (fst r) = None -> (String.length (snd r) <= Available (fst r))%nat).
Proof.
  induction fuel as [|f IH]; intros b s Hs r.
  - subst r. cbn [writeString_loop fst snd].
    refine (conj _ (conj _ (conj _ (conj _ _)))).
    + reflexivity.
    + intros _; reflexivity.
    + exists 0%nat. cbn [take drop]. split; [now rewrite app_nil_r_s | reflexivity].
    + intros H; split; [exact H | reflexivity].
    + intros [H|H] _; [exact H | lia].
  - subst r. cbn [writeString_loop].
    destruct ((Available b <? String.length s)%nat
              && match err b with None => true | Some _ => false end)%bool eqn:C.
    + apply andb_prop in C as [C1 C2]. apply Nat.ltb_lt in C1.
      destruct (err b) as [e|] eqn:Eb; [discriminate|].
      set (n := Available b).
      set (b1 := with_buf b (buf b ++ take n s)).
      assert (Hs1 : (0 < size b1)%nat) by exact Hs.
      destruct (Flush_spec b1 Hs1) as (S2 & _ & R2 & [k2 K2] & _ & N2).
      assert (K2' : contents (fst (Flush b1)) = contents b ++ take n s).
      { rewrite K2, take_empty, app_nil_r_s. apply with_buf_contents. }
      set (b2 := fst (Flush b1)) in *.
      assert (Hsz : size b2 = size b) by (rewrite S2; reflexivity).
      assert (Hs2 : (0 < size b2)%nat) by lia.
      destruct (IH b2 (drop n s) Hs2) as (S3 & E3 & [k3 [K3 D3]] & N3 & A3).
      refine (conj _ (conj _ (conj _ (conj _ _)))).
      * congruence.
      * intros H; congruence.
      * exists (n + k3)%nat. rewrite K3, K2', <- take_add, <- drop_drop.
        split; [now rewrite app_assoc_s | exact D3].
      * intros Hr. destruct (N2 Hr) as [A B]. destruct (N3 A) as [C D].
        split; [exact C|]. rewrite D, B. unfold b1. rewrite with_buf_err. congruence.
      * intros Hfuel Hn.
        destruct (err b2) as [e2|] eqn:Eb2.
        { assert (Hne : Some e2 <> None) by discriminate.
          rewrite (E3 Hne) in Hn. cbn [fst] in Hn. congruence. }
        apply A3; [|exact Hn].
        assert (Hbuf : buf b2 = "") by (apply Flush_ok; exact Eb2).
        unfold Available. rewrite Hbuf, Hsz. cbn [String.length].
        rewrite length_drop. clearbody n. lia.
    + cbn [fst snd].
      refine (conj _ (conj _ (conj _ (conj _ _)))).
      * reflexivity.
      * intros _; reflexivity.
      * exists 0%nat. cbn [take drop]. split; [now rewrite app_nil_r_s | reflexivity].
      * intros H; split; [exact H | reflexivity].
      * intros _ Hn. apply andb_false_iff in C as [C|C].
        -- apply Nat.ltb_ge in C. exact C.
        -- rewrite Hn in C. discriminate.
Qed.

Lemma WriteString_spec (s : string) : Writes (fun b => WriteString b s) s.
Proof.
  intros b Hs. unfold WriteString.
  destruct (loop_spec (S (String.length s)) b s Hs) as (S1 & E1 & [k [K1 D1]] & N1 & A1).
  destruct (writeString_loop (S (String.length s)) b s) as [b1 s1] eqn:Hl.
  cbn [fst snd] in *.
  destruct (err b1) as [e|] eqn:Eb1; cbn [fst snd].
  - six.
    + exact S1.
    + intros Hb. specialize (E1 Hb). congruence.
    + intros H; congruence.
    + exists k. exact K1.
    + intros H; congruence.
    + intros Hr. destruct (N1 Hr) as [A B]. split; congruence.
  - assert (Hfit : (String.length s1 <= Available b1)%nat)
      by (apply A1; [right; lia | reflexivity]).
    rewrite (take_all _ s1 Hfit).
    assert (Full : contents (with_buf b1 (buf b1 ++ s1)) = contents b ++ s).
    { rewrite with_buf_contents, K1, D1, <- app_assoc_s, take_drop. reflexivity. }
    six.
    + rewrite with_buf_size. exact S1.
    + intros Hb. specialize (E1 Hb). inversion E1; subst. congruence.
    + intros _. rewrite with_buf_err. congruence.
    + exists (String.length s). rewrite Full, take_all; [reflexivity | lia].
    + intros _. exact Full.
    + intros Hr. rewrite with_buf_wr, with_buf_err. destruct (N1 Hr) as [A B].
      split; congruence.
Qed.

(** The bytes [WriteRune] writes. *)
Definition rune_bytes (r : Z) : string :=
  if (r <? Utf8.RuneSelf)%Z then char (Utf8.byte r) else Utf8.EncodeRune r.

Lemma WriteRune_spec (r : Z) : Writes (fun b => WriteRune b r) (rune_bytes r).
Proof.
  unfold rune_bytes.
  destruct (r <? Utf8.RuneSelf)%Z eqn:Er.
  { intros b Hs. cbv beta.
    assert (HW : WriteRune b r = WriteByte b (Utf8.byte r))
      by (unfold WriteRune; now rewrite Er).
    rewrite HW. exact (WriteByte_spec (Utf8.byte r) b Hs). }
  intros b Hs. cbv beta.
  destruct (err b) as [e|] eqn:Eb in Hs.
  { assert (HW : WriteRune b r = (b, Some e))
      by (unfold WriteRune; now rewrite Er, Eb).
    rewrite HW. cbn [fst snd]. six.
    - reflexivity.
    - intros _; reflexivity.
    - intros H; congruence.
    - exists 0%nat. cbn [take]. now rewrite app_nil_r_s.
    - intros H; congruence.
    - intros H; split; [exact H | congruence]. }
  set (u := Utf8.EncodeRune r).
  assert (HW : WriteRune b r =
                (if (Available b <? Utf8.UTFMax)%nat then
                   let b := fst (Flush b) in
                   match err b with
                   | Some e => (b, Some e)
                   | None =>
                       if (Available b <? Utf8.UTFMax)%nat then WriteString b u
                       else (with_buf b (buf b ++ u), None)
                   end
                 else (with_buf b (buf b ++ u), None)))
    by (unfold WriteRune; rewrite Er, Eb; reflexivity).
  rewrite HW.
  destruct (Available b <? Utf8.UTFMax)%nat.
  - destruct (Flush_spec b Hs) as (S1 & _ & R1 & [k1 K1] & _ & N1).
    specialize (R1 Eb).
    assert (K1' : contents (fst (Flush b)) = contents b)
      by (rewrite K1, take_empty; apply app_nil_r_s).
    cbn [fst snd].
    set (b1 := fst (Flush b)) in *.
    destruct (err b1) as [e1|] eqn:Eb1.
    + cbn [fst snd]. six.
      * exact S1.
      * intros H; congruence.
      * intros _; congruence.
      * exists 0%nat. cbn [take]. now rewrite K1', app_nil_r_s.
      * intros H; congruence.
      * intros Hr. destruct (N1 Hr) as [A B]. split; congruence.
    + destruct (Available b1 <? Utf8.UTFMax)%nat.
      * destruct (WriteString_spec u b1 ltac:(lia)) as (S2 & E2 & R2 & [k2 K2] & F2 & N2).
        six.
        -- congruence.
        -- intros H; congruence.
        -- intros _. apply R2. exact Eb1.
        -- exists k2. rewrite K2, K1'. reflexivity.
        -- intros Hn. rewrite (F2 Hn), K1'. reflexivity.
        -- intros Hr. destruct (N1 Hr) as [A B]. destruct (N2 A) as [C D].
           split; congruence.
      * cbn [fst snd]. apply Writes_append; try assumption.
        intros Hr. destruct (N1 Hr) as [A B]. split; congruence.
  - cbn [fst snd]. apply Writes_append; try reflexivity; try assumption.
    intros Hr; split; [exact Hr | reflexivity].
Qed.

End BufioFacts.

Module CsvFacts.
Import Str StrFacts BufioFacts Csv.

Lemma Writes_ext (op op' : Bufio.Writer -> Bufio.Writer * option Bufio.Err) (s : string) :
  (forall b, op' b = op b) -> Writes op s -> Writes op' s.
Proof. intros E W b Hs. rewrite !E. exact (W b Hs). Qed.

Lemma Writes_bytes (op : Bufio.Writer -> Bufio.Writer * option Bufio.Err) (s s' : string) :
  s = s' -> Writes op s -> Writes op s'.
Proof. intros <-; exact (fun W => W). Qed.

Lemma quote_body_app (crlf : bool) (x y : string) :
  quote_body crlf (x ++ y) = quote_body crlf x ++ quote_body crlf y.
Proof.
  induction x as [|c x IH]; cbn [append quote_body]; [reflexivity|].
  rewrite IH. apply app_assoc_s.
Qed.

Lemma quote_body_plain (crlf : bool) (s : string) :
  quote_body crlf (take (index_special s) s) = take (index_special s) s.
Proof.
  induction s as [|c s IH]; [reflexivity|].
  cbn [index_special]. destruct (is_special c) eqn:Ec; [reflexivity|].
  cbn [take quote_body]. rewrite IH.
  unfold quote_char, is_special in *.
  apply orb_false_iff in Ec as [Ec E3]. apply orb_false_iff in Ec as [E1 E2].
  rewrite E1, E2, E3. reflexivity.
Qed.

Lemma drop_index_special (s : string) :
  drop (index_special s) s = ""
  \/ exists c rest, drop (index_special s) s = String c rest /\ is_special c = true.
Proof.
  induction s as [|c s IH]; [left; reflexivity|].
  cbn [index_special]. destruct (is_special c) eqn:Ec.
  - right. exists c, s. split; [reflexivity | exact Ec].
  - exact IH.
Qed.

Lemma write_special_spec (crlf : bool) (c : ascii) :
  is_special c = true ->
  Writes (fun b => write_special crlf b c) (quote_char crlf c).
Proof.
  intros Hc. unfold write_special, quote_char.
  destruct (Ascii.eqb c dquote) eqn:Ed; [apply WriteString_spec|].
  destruct (Ascii.eqb c cr) eqn:Er.
  { destruct crlf; [apply Writes_ret | apply WriteByte_spec]. }
  destruct (Ascii.eqb c lf) eqn:El.
  { destruct crlf; [apply WriteString_spec | apply WriteByte_spec]. }
  unfold is_special in Hc. rewrite Ed, Er, El in Hc. discriminate.
Qed.

Lemma write_quoted_S (crlf : bool) (f : nat) (b : Bufio.Writer) (field : string) :
  field <> "" ->
  write_quoted crlf (S f) b field =
  Bufio.bind (Bufio.WriteString b (take (index_special field) field)) (fun b =>
    match drop (index_special field) field with
    | EmptyString => (b, None)
    | String c rest =>
        Bufio.bind (write_special crlf b c) (fun b => write_quoted crlf f b rest)
    end).
Proof. destruct field; [congruence | reflexivity]. Qed.

Lemma write_quoted_spec (crlf : bool) (fuel : nat) : forall field,
  (String.length field < fuel)%nat ->
  Writes (fun b => write_quoted crlf fuel b field) (quote_body crlf field).
Proof.
  induction fuel as [|f IH]; intros field Hf; [lia|].
  destruct (String.eqb field "") eqn:E0.
  { apply String.eqb_eq in E0. subst field. apply Writes_ret. }
  apply String.eqb_neq in E0.
  apply (Writes_ext (fun b =>
    Bufio.bind (Bufio.WriteString b (take (index_special field) field)) (fun b =>
      match drop (index_special field) field with
      | EmptyString => (b, None)
      | String c rest =>
          Bufio.bind (write_special crlf b c) (fun b => write_quoted crlf f b rest)
      end))).
  { intros b. apply write_quoted_S. exact E0. }
  assert (Hsplit := take_drop (index_special field) field).
  destruct (drop_index_special field) as [Hd | (c & rest & Hd & Hc)];
    rewrite Hd in *.
  - apply (Writes_bytes _ (take (index_special field) field ++ "")).
    { rewrite app_nil_r_s in *. rewrite <- (quote_body_plain crlf field).
      rewrite Hsplit. reflexivity. }
    apply (Writes_bind (fun b => Bufio.WriteString b _)); [apply WriteString_spec | apply Writes_ret].
  - apply (Writes_bytes _ (take (index_special field) field
                           ++ (quote_char crlf c ++ quote_body crlf rest))).
    { transitivity (quote_body crlf (take (index_special field) field ++ String c rest));
        [| now rewrite Hsplit].
      rewrite quote_body_app, quote_body_plain. reflexivity. }
    apply (Writes_bind (fun b => Bufio.WriteString b _)); [apply WriteString_spec|].
    apply (Writes_bind (fun b => write_special crlf b c)); [apply write_special_spec; exact Hc|].
    apply IH.
    assert (Hl := f_equal String.length Hsplit).
    rewrite length_app_s in Hl. cbn [String.length] in Hl. lia.
Qed.

Lemma write_field_spec (comma : Z) (crlf : bool) (field : string) :
  Writes (fun b => write_field comma crlf b field) (render_field comma crlf field).
Proof.
  unfold write_field, render_field.
  destruct (fieldNeedsQuotes comma field); cbn [negb].
  - apply (Writes_bind (fun b => Bufio.WriteByte b dquote)); [apply WriteByte_spec|].
    apply (Writes_bind (fun b => write_quoted crlf (S (String.length field)) b field)).
    + apply write_quoted_spec. lia.
    + apply WriteByte_spec.
  - apply WriteString_spec.
Qed.

Lemma write_fields_spec (comma : Z) (crlf : bool) (record : list string) : forall n,
  Writes (fun b => write_fields comma crlf n b record) (render_fields comma crlf n record).
Proof.
  induction record as [|f rest IH]; intros n; [apply Writes_ret|].
  cbn [write_fields render_fields].
  apply (Writes_bind (fun b => if Nat.eqb n 0 then (b, None) else Bufio.WriteRune b comma)).
  - destruct (Nat.eqb n 0); [apply Writes_ret|].
    apply (Writes_bytes _ (rune_bytes comma)); [reflexivity | apply WriteRune_spec].
  - apply (Writes_bind (fun b => write_field comma crlf b f)); [apply write_field_spec | apply IH].
Qed.

(** The body of [Writer.Write] after the delimiter check. *)
Definition write_record (cw : Writer) (record : list string) (b : Bufio.Writer)
  : Bufio.Writer * option Bufio.Err :=
  Bufio.bind (write_fields (Comma cw) (UseCRLF cw) 0 b record) (fun b =>
    if UseCRLF cw then Bufio.WriteString b (char cr ++ char lf)
    else Bufio.WriteByte b lf).

Lemma write_record_spec (cw : Writer) (record : list string) :
  Writes (write_record cw record) (render_record (Comma cw) (UseCRLF cw) record).
Proof.
  apply (Writes_bind (fun b => write_fields (Comma cw) (UseCRLF cw) 0 b record)).
  - apply write_fields_spec.
  - unfold terminator. destruct (UseCRLF cw); [apply WriteString_spec | apply WriteByte_spec].
Qed.

Lemma Write_valid (cw : Writer) (record : list string) :
  validDelim (Comma cw) = true ->
  Write cw record =
  (mkWriter (Comma cw) (UseCRLF cw) (fst (write_record cw record (w cw))),
   option_map IOError (snd (write_record cw record (w cw)))).
Proof.
  intros Hv. unfold Write. rewrite Hv. cbn [negb].
  fold (write_record cw record (w cw)).
  destruct (write_record cw record (w cw)); reflexivity.
Qed.


End CsvFacts.

(* ================================================================== *)
(** ** Auxiliary facts *)

Module Facts.
Import Str.

Lemma str_app_assoc (a b c : string) : a ++ (b ++ c) = (a ++ b) ++ c.
Proof. induction a as [|x a IH]; simpl; [reflexivity | now rewrite IH]. Qed.

Lemma str_app_nil_r (a : string) : a ++ "" = a.
Proof. induction a as [|x a IH]; simpl; [reflexivity | now rewrite IH]. Qed.

(** The fields after the first, each preceded by the separator. *)
Fixpoint prefixed (sep : string) (l : list string) : string :=
  match l with
  | [] => ""
  | y :: ys => sep ++ y ++ prefixed sep ys
  end.

Lemma join_cons (sep x : string) (xs : list string) :
  join sep (x :: xs) = x ++ prefixed sep xs.
Proof.
  revert x. induction xs as [|y ys IH]; intros x.
  - simpl. now rewrite str_app_nil_r.
  - change (join sep (x :: y :: ys)) with (x ++ sep ++ join sep (y :: ys)).
    now rewrite IH.
Qed.

(** Every field after the first is preceded by the delimiter. *)
Lemma render_fields_succ (comma : Z) (crlf : bool) (n : nat) (l : list string) :
  Csv.render_fields comma crlf (S n) l
  = prefixed (Csv.delim comma) (map (Csv.render_field comma crlf) l).
Proof.
  revert n. induction l as [|f l IH]; intros n; cbn [Csv.render_fields map prefixed];
    [reflexivity|].
  rewrite IH. reflexivity.
Qed.

(** A record is the rendered fields joined by the delimiter, then the
    line terminator. *)
Lemma render_record_join (comma : Z) (crlf : bool) (l : list string) :
  Csv.render_record comma crlf l
  = join (Csv.delim comma) (map (Csv.render_field comma crlf) l) ++ Csv.terminator crlf.
Proof.
  unfold Csv.render_record. destruct l as [|f l]; [reflexivity|].
  cbn [Csv.render_fields Nat.eqb]. rewrite render_fields_succ.
  cbn [map]. rewrite join_cons. reflexivity.
Qed.

(** The tab delimiter is written as the single byte 9. *)
Lemma delim_tab : Csv.delim 9 = char tab.
Proof. reflexivity. Qed.

Lemma ContainsRune_tab (s : string) : Csv.ContainsRune s 9 = contains_char tab s.
Proof. reflexivity. Qed.

Lemma validDelim_tab : Csv.validDelim 9 = true.
Proof. reflexivity. Qed.

(** Rows with the tab delimiter and LF line ends. *)
Lemma render_record_tab (l : list string) :
  Csv.render_record 9 false l = join (char tab) (map (Csv.render_field 9 false) l) ++ char lf.
Proof. rewrite render_record_join. reflexivity. Qed.

(** Strings of decimal digits and minus signs, as [appendInt] writes. *)
Definition is_num_char (c : ascii) : bool :=
  let n := nat_of_ascii c in ((n =? 45) || ((48 <=? n) && (n <=? 57)))%nat.

Fixpoint numeric (s : string) : bool :=
  match s with
  | EmptyString => true
  | String c s' => is_num_char c && numeric s'
  end.

Lemma numeric_app (a b : string) : numeric (a ++ b) = numeric a && numeric b.
Proof.
  induction a as [|x a IH]; simpl; [reflexivity|]. rewrite IH. apply andb_assoc.
Qed.

Lemma numeric_uint (u : Decimal.uint) : numeric (NilEmpty.string_of_uint u) = true.
Proof. induction u; simpl; auto. Qed.

Lemma numeric_zeros (k : nat) : numeric (String.concat "" (repeat "0" k)) = true.
Proof.
  induction k as [|k IH]; [reflexivity|].
  destruct k; [reflexivity|]. simpl repeat. simpl String.concat.
  simpl. exact IH.
Qed.

Lemma numeric_appendInt (x : Z) (w : nat) : numeric (GoTime.appendInt x w) = true.
Proof.
  unfold GoTime.appendInt, pad_N, of_N.
  rewrite !numeric_app, numeric_zeros, numeric_uint.
  destruct (x <? 0)%Z; reflexivity.
Qed.

(** The layout [20060102] is its three numeric elements. *)
Lemma FormatUnix_partition (p : Z) :
  GoTime.FormatUnix S3.PartitionDateFormat p
  = GoTime.appendInt (GoTime.year (GoTime.utc p)) 4
    ++ GoTime.appendInt (GoTime.month (GoTime.utc p)) 2
    ++ GoTime.appendInt (GoTime.day (GoTime.utc p)) 2.
Proof.
  transitivity (GoTime.appendInt (GoTime.year (GoTime.utc p)) 4
    ++ GoTime.appendInt (GoTime.month (GoTime.utc p)) 2
    ++ GoTime.appendInt (GoTime.day (GoTime.utc p)) 2 ++ "");
    [reflexivity | now rewrite str_app_nil_r].
Qed.

Lemma numeric_partition (p : Z) :
  numeric (GoTime.FormatUnix S3.PartitionDateFormat p) = true.
Proof.
  rewrite FormatUnix_partition, !numeric_app, !numeric_appendInt. reflexivity.
Qed.

Lemma numeric_no_char (c : ascii) (s : string) :
  is_num_char c = false -> numeric s = true -> contains_char c s = false.
Proof.
  intros Hc. induction s as [|x s IH]; simpl; [reflexivity|].
  intros Hx. apply andb_prop in Hx as [Hx Hs].
  rewrite (IH Hs), orb_false_r.
  destruct (Ascii.eqb_spec c x); [subst; congruence | reflexivity].
Qed.

Lemma numeric_not_space (s : string) :
  numeric s = true -> Csv.starts_with_space s = false.
Proof.
  destruct s as [|c s]; [reflexivity|]. simpl. intros H.
  apply andb_prop in H as [Hc _]. revert Hc.
  destruct c as [[] [] [] [] [] [] [] []]; vm_compute; congruence.
Qed.

(** [appendInt] output is never quoted with the tab delimiter. *)
Lemma numeric_unquoted (s : string) :
  numeric s = true -> Csv.render_field 9 false s = s.
Proof.
  intros H. unfold Csv.render_field, Csv.fieldNeedsQuotes. rewrite ContainsRune_tab.
  rewrite !(numeric_no_char _ s) by (reflexivity || exact H).
  rewrite (numeric_not_space s H).
  destruct (String.eqb s ""); [reflexivity|].
  destruct (String.eqb_spec s "\."); [subst; discriminate|reflexivity].
Qed.

End Facts.

(* ================================================================== *)
(** ** [csv.Writer.Write] on the writer states the encoder meets *)

(** A writer with no earlier error, whose sink never fails, whose
    delimiter is valid, and whose buffer has a positive size (as
    [bufio.NewWriterSize] ensures). *)
Definition healthy (cw : Csv.Writer) : Prop :=
  Bufio.err (Csv.w cw) = None /\ Bufio.s_room (Bufio.wr (Csv.w cw)) = None
  /\ Csv.validDelim (Csv.Comma cw) = true /\ (0 < Bufio.size (Csv.w cw))%nat.

(** A tab-delimited writer with LF line ends over a [bufio.Writer] of
    the default size: its sink has taken [o] and [b] is buffered. *)
Definition tsv_writer (o b : string) : Csv.Writer :=
  Csv.mkWriter 9 false
    (Bufio.mkWriter None b Bufio.defaultBufSize (Bufio.mkSink o None)).

Module WriterFacts.
Import Str StrFacts.

Lemma tsv_writer_healthy (o b : string) : healthy (tsv_writer o b).
Proof. unfold healthy, tsv_writer; cbn. repeat split. unfold Bufio.defaultBufSize; lia. Qed.

Lemma tsv_writer_contents (o b : string) : Csv.contents (tsv_writer o b) = o ++ b.
Proof. reflexivity. Qed.

(** On a healthy writer, [Write] appends the whole record, returns no
    error and leaves a healthy writer with the same settings. *)
Lemma Write_healthy (cw : Csv.Writer) (r : list string) :
  healthy cw ->
  snd (Csv.Write cw r) = None
  /\ Csv.Error (fst (Csv.Write cw r)) = None
  /\ healthy (fst (Csv.Write cw r))
  /\ Csv.Comma (fst (Csv.Write cw r)) = Csv.Comma cw
  /\ Csv.UseCRLF (fst (Csv.Write cw r)) = Csv.UseCRLF cw
  /\ Csv.contents (fst (Csv.Write cw r))
     = Csv.contents cw ++ Csv.render_record (Csv.Comma cw) (Csv.UseCRLF cw) r.
Proof.
  intros (He & Hr & Hv & Hs).
  rewrite (CsvFacts.Write_valid cw r Hv).
  destruct (CsvFacts.write_record_spec cw r (Csv.w cw) Hs) as (S & _ & E & _ & F & N).
  destruct (N Hr) as [Hr' He']. rewrite He in He'.
  unfold Csv.Error, Bufio.Write_nil, healthy, Csv.contents.
  cbn [fst snd Csv.w Csv.Comma Csv.UseCRLF].
  unfold BufioFacts.contents in F.
  rewrite (E He), He'. cbn [option_map].
  split; [reflexivity|]. split; [reflexivity|].
  split; [split; [reflexivity|split; [exact Hr'|split; [exact Hv|rewrite S; exact Hs]]]|].
  split; [reflexivity|]. split; [reflexivity|].
  exact (F He').
Qed.



(** [Flush] on a healthy writer hands every byte to the sink. *)
Lemma Flush_healthy (cw : Csv.Writer) :
  healthy cw -> Bufio.s_out (Bufio.wr (Csv.w (Csv.Flush cw))) = Csv.contents cw.
Proof.
  intros (He & Hr & _ & Hs).
  destruct (BufioFacts.Flush_spec (Csv.w cw) Hs) as (_ & _ & _ & _ & F & N).
  destruct (N Hr) as [_ He']. rewrite He in He'.
  pose proof (F He') as C. pose proof (BufioFacts.Flush_ok (Csv.w cw) He') as B.
  unfold BufioFacts.contents in C. rewrite B, !app_nil_r_s in C.
  exact C.
Qed.

End WriterFacts.

(* ================================================================== *)
(** ** Properties *)

Import Str.
Local Abbreviation TAB := (char tab).

(** The DDMetric of the [BasicDDMetric] case of [CSVTestCases]. *)
Definition basic_ddmetric : Samplers.DDMetric Q :=
  Samplers.mkDDMetric "a.b.c.max" (1476119058%Z, 100) ["foo:bar"; "baz:quz"]
    "gauge" "globalstats" "food" 0.

(** C1 (amended): encoding the basic DDMetric with hostname override
    [testbox-c3eac9] and any partition time [p], into a tab-delimited
    writer whose sink holds [o] and whose buffer holds [b], returns no
    error and adds exactly the row [a.b.c.max TAB {foo:bar,baz:quz} TAB
    gauge TAB globalstats TAB testbox-c3eac9 TAB food TAB 0 TAB
    2016-10-10 05:04:18 TAB 100 TAB P LF], P being the [20060102] date
    of [p]; after [Flush] the sink holds it.  The instant 1476119058
    itself is 2016-10-10 17:04:18 UTC, shown with its 12-hour-clock hour. *)
Theorem DDMetric_EncodeCSV_basic_row (o b : string) (p : Z) :
  let r := Samplers.EncodeCSV basic_ddmetric (tsv_writer o b) p "testbox-c3eac9" in
  let row := "a.b.c.max" ++ TAB ++ "{foo:bar,baz:quz}" ++ TAB
       ++ "gauge" ++ TAB ++ "globalstats" ++ TAB ++ "testbox-c3eac9" ++ TAB
       ++ "food" ++ TAB ++ "0" ++ TAB ++ "2016-10-10 05:04:18" ++ TAB
       ++ "100" ++ TAB ++ GoTime.FormatUnix S3.PartitionDateFormat p ++ char lf in
  snd r = None
  /\ Csv.contents (fst r) = o ++ b ++ row
  /\ Bufio.s_out (Bufio.wr (Csv.w (Csv.Flush (fst r)))) = o ++ b ++ row
  /\ GoTime.FormatUnix "2006-01-02 15:04:05" 1476119058 = "2016-10-10 17:04:18".
Proof.
  intros r row. unfold r, Samplers.EncodeCSV.
  match goal with |- context [Csv.Write _ ?l] => set (fields := l) end.
  destruct (WriterFacts.Write_healthy (tsv_writer o b) fields (WriterFacts.tsv_writer_healthy o b))
    as (_ & Herr & Hh & _ & _ & Hc).
  assert (Hrow : Csv.contents (fst (Csv.Write (tsv_writer o b) fields)) = o ++ b ++ row).
  { rewrite Hc, WriterFacts.tsv_writer_contents, <- Facts.str_app_assoc.
    f_equal. f_equal. cbn [tsv_writer Csv.Comma Csv.UseCRLF].
    rewrite Facts.render_record_tab. unfold fields. cbn [map].
    rewrite (Facts.numeric_unquoted _ (Facts.numeric_partition p)).
    reflexivity. }
  cbn [fst snd]. split; [exact Herr|]. split; [exact Hrow|].
  split; [rewrite WriterFacts.Flush_healthy by exact Hh; exact Hrow|].
  reflexivity.
Qed.

(** C1 (counterexample): the instant 1476119058 is 17:04:18 UTC, not
    05:04:18; its UTC rendering on the 24-hour clock differs from the
    timestamp the row shows. *)
Lemma DDMetric_basic_timestamp_not_utc_0504 :
  GoTime.utc 1476119058 = GoTime.mkCivil 2016 10 10 17 4 18
  /\ GoTime.FormatUnix "2006-01-02 15:04:05" 1476119058 <> "2016-10-10 05:04:18".
Proof. split; [vm_compute; reflexivity | vm_compute; discriminate]. Qed.
Section SamplerFacts.
Context {F : Type} `{FloatModel F}.

Lemma counter_run_sum (c : Samplers.Counter F) (samples : list (F * F)) :
  Samplers.counter_run c samples
  = Samplers.mkCounter (Samplers.CName c) (Samplers.CTags c)
      (fold_left (fun s '(v, r) => fadd s (fdiv v r)) samples (Samplers.sum c)).
Proof.
  revert c. induction samples as [|[v r] rest IH]; intros c; simpl.
  - now destruct c.
  - rewrite IH. reflexivity.
Qed.

Lemma gauge_run_last (g : Samplers.Gauge F) (samples : list (F * F)) :
  samples <> [] ->
  Samplers.gauge_run g samples
  = Samplers.mkGauge (Samplers.GName g) (Samplers.GTags g)
      (fst (List.last samples (f_of_Z 0, f_of_Z 0))).
Proof.
  revert g. induction samples as [|[v r] rest IH]; intros g Hne; [congruence|].
  simpl. destruct rest as [|s rest'].
  - reflexivity.
  - rewrite IH by discriminate. reflexivity.
Qed.

End SamplerFacts.

(** C3: a counter fed samples [(v_i, r_i)] and flushed over [I] seconds
    emits exactly one rate-typed metric with interval [I] whose value is
    the sum of the [v_i / r_i] (accumulated in sample order) divided by
    [I]; one sample 5 at rate 1 gives 0.5 over 10 s, one sample 5 at
    rate 0.5 gives 1. *)
Theorem counter_flush_rate :
  (forall (F : Type) (FM : FloatModel F) (name : string) (tags : list string)
          (samples : list (F * F)) (I now : Z),
     Samplers.CounterFlush (Samplers.counter_run (Samplers.NewCounter name tags) samples) I now
     = [Samplers.mkDDMetric name
          (now, fdiv (fold_left (fun s '(v, r) => fadd s (fdiv v r)) samples (f_of_Z 0))
                     (f_of_Z I))
          tags "rate" "" "" I])
  /\ (forall now : Z,
        match Samplers.CounterFlush
                (Samplers.counter_run (Samplers.NewCounter "a.b.c" ["a:b"]) [(5, 1)]) 10 now
        with [m] => snd (Samplers.Value m) == 1 # 2 | _ => False end
      /\ match Samplers.CounterFlush
                (Samplers.counter_run (Samplers.NewCounter "a.b.c" ["a:b"]) [(5, 1 # 2)]) 10 now
        with [m] => snd (Samplers.Value m) == 1 | _ => False end).
Proof.
  split.
  - intros F FM name tags samples I now.
    unfold Samplers.CounterFlush. rewrite counter_run_sum. reflexivity.
  - intros now. split; cbv; reflexivity.
Qed.

(** C9: for every non-empty sequence of samples, a gauge's flush emits
    exactly one gauge-typed metric with interval 0 whose value is the
    value of the last sample. *)
Theorem gauge_flush_last (F : Type) (FM : FloatModel F) (name : string)
    (tags : list string) (samples : list (F * F)) (now : Z) :
  samples <> [] ->
  Samplers.GaugeFlush (Samplers.gauge_run (Samplers.NewGauge name tags) samples) now
  = [Samplers.mkDDMetric name (now, fst (List.last samples (f_of_Z 0, f_of_Z 0)))
       tags "gauge" "" "" 0].
Proof.
  intros Hne. unfold Samplers.GaugeFlush. rewrite gauge_run_last by exact Hne.
  reflexivity.
Qed.

Lemma gauge_flush_last_witness :
  [(5, 1); (7, 1 # 2)] <> []
  /\ Samplers.GaugeFlush
       (Samplers.gauge_run (Samplers.NewGauge "a.b.c" ["a:b"]) [(5, 1); (7, 1 # 2)]) 0
     = [Samplers.mkDDMetric "a.b.c" (0%Z, 7) ["a:b"] "gauge" "" "" 0].
Proof.
  split; [discriminate|].
  apply (gauge_flush_last Q Q_FloatModel "a.b.c" ["a:b"] [(5, 1); (7, 1 # 2)] 0).
  discriminate.
Defined.

Lemma hist_step_keeps_neutral (h : Samplers.Histo) (op : Samplers.HistOp) :
  Samplers.is_sample op = false ->
  Samplers.locals_neutral h -> Samplers.locals_neutral (Samplers.hist_step h op).
Proof.
  destruct op as [v r p | s | |]; simpl; intros Hop Hn; try discriminate.
  - exact Hn.
  - exact Hn.
  - unfold Samplers.locals_neutral. simpl. repeat split.
Qed.

Lemma hist_run_keeps_neutral (h : Samplers.Histo) (ops : list Samplers.HistOp) :
  forallb (fun o => negb (Samplers.is_sample o)) ops = true ->
  Samplers.locals_neutral h -> Samplers.locals_neutral (Samplers.hist_run h ops).
Proof.
  revert h. induction ops as [|op ops IH]; intros h Hops Hn; [exact Hn|].
  simpl in Hops. apply andb_prop in Hops as [Hop Hops].
  apply IH; [exact Hops|].
  apply hist_step_keeps_neutral; [now apply negb_true_iff | exact Hn].
Qed.

(** C4: after [combine(snapshot)] on a fresh histogram, and after any
    further combines, exports and flushes, the local stats are neutral
    (weight 0, min +infinity, max -infinity); the next local sample
    [v] at rate [r] makes them [1/r], [v] and [v]. *)
Theorem hist_combine_leaves_locals_neutral (name : string) (tags : list string)
    (snapshot : list Samplers.Entry) (ops : list Samplers.HistOp) :
  forallb (fun o => negb (Samplers.is_sample o)) ops = true ->
  let h := Samplers.hist_run (Samplers.HistCombine (Samplers.NewHist name tags) snapshot) ops in
  Samplers.locals_neutral h
  /\ (forall v r p : Q,
        Samplers.LocalWeight (Samplers.HistSample h v r p) == / r
        /\ Samplers.LocalMin (Samplers.HistSample h v r p) = Samplers.Fin v
        /\ Samplers.LocalMax (Samplers.HistSample h v r p) = Samplers.Fin v).
Proof.
  intros Hops h.
  assert (Hn : Samplers.locals_neutral h).
  { apply hist_run_keeps_neutral; [exact Hops|].
    unfold Samplers.locals_neutral. simpl. repeat split. }
  split; [exact Hn|].
  destruct Hn as (Hw & Hmin & Hmax).
  intros v r p. simpl. rewrite Hw, Hmin, Hmax. simpl.
  split; [apply Qplus_0_l | split; reflexivity].
Qed.

Lemma hist_combine_leaves_locals_neutral_witness :
  forallb (fun o => negb (Samplers.is_sample o))
    [Samplers.OpExport; Samplers.OpCombine [(1, 3, 1)]; Samplers.OpFlush] = true
  /\ Samplers.locals_neutral
       (Samplers.hist_run
          (Samplers.HistCombine (Samplers.NewHist "a.b.c" ["a:b"]) [(2, 5, 1); (1, 7, 2)])
          [Samplers.OpExport; Samplers.OpCombine [(1, 3, 1)]; Samplers.OpFlush]).
Proof.
  split; [reflexivity|].
  apply (hist_combine_leaves_locals_neutral "a.b.c" ["a:b"] [(2, 5, 1); (1, 7, 2)]
           [Samplers.OpExport; Samplers.OpCombine [(1, 3, 1)]; Samplers.OpFlush]).
  reflexivity.
Defined.

Lemma contains_char_app (c : ascii) (a b : string) :
  contains_char c (a ++ b) = contains_char c a || contains_char c b.
Proof.
  induction a as [|x a IH]; simpl; [reflexivity|]. rewrite IH. apply orb_assoc.
Qed.

Lemma contains_char_join (c : ascii) (sep t : string) (l : list string) :
  In t l -> contains_char c t = true -> contains_char c (join sep l) = true.
Proof.
  intros Hin Ht. induction l as [|x l IH]; [destruct Hin|].
  destruct l as [|y l'].
  - destruct Hin as [<-|[]]. exact Ht.
  - change (join sep (x :: y :: l')) with (x ++ sep ++ join sep (y :: l')).
    rewrite !contains_char_app.
    destruct Hin as [<-|Hin].
    + now rewrite Ht.
    + rewrite (IH Hin). now rewrite !orb_true_r.
Qed.

(** The Partition field: the UTC date of [p] as [YYYYMMDD]. *)
Definition partition_ymd (p : Z) : string :=
  let c := GoTime.utc p in
  GoTime.appendInt (GoTime.year c) 4 ++ GoTime.appendInt (GoTime.month c) 2
  ++ GoTime.appendInt (GoTime.day c) 2.

(** The Tags field: the [tags] argument followed by the metric's tags,
    joined by commas and wrapped in braces. *)
Definition tags_field (tags metricTags : list string) : string :=
  "{" ++ join "," (tags ++ metricTags)%list ++ "}".


Lemma partition_ymd_format (p : Z) :
  GoTime.FormatUnix S3.PartitionDateFormat p = partition_ymd p.
Proof. rewrite Facts.FormatUnix_partition. reflexivity. Qed.

(** The [TabTag] metric of [CSVTestCases] as an InterMetric. *)
Definition tab_tag_metric : S3.InterMetric Q :=
  S3.mkInterMetric "a.b.c.max" 1476119058 100 ["foo:b" ++ TAB ++ "ar"; "baz:quz"]
    S3.GaugeMetric.

Section EncodeFacts.
Context {F : Type} `{FloatModel F}.

(** The record written for a counter or a gauge. *)
Definition encode_fields (d : S3.InterMetric F) (p : Z) (hostName : string) (interval : F)
    (timeFormat : string) (tags : list string) (metricType value : string) : list string :=
  [S3.Name d; tags_field tags (S3.Tags d); metricType; hostName;
   FormatFloat interval; GoTime.FormatUnix timeFormat (S3.Timestamp d); value; partition_ymd p].


Lemma encode_known_type (d : S3.InterMetric F) (w : Csv.Writer) (p : Z)
    (hostName : string) (interval : F) (timeFormat : string) (tags : list string) :
  (S3.EncodeInterMetricCSV d w (Some p) hostName interval timeFormat tags
   = S3.Returned w (Some (S3.UnknownMetricType (S3.Type_ d)))
   /\ exists code, S3.Type_ d = S3.OtherMetricType code)
  \/ exists metricType value,
       ((metricType = "rate" /\ value = FormatFloat (fdiv (S3.Value d) interval)
         /\ S3.Type_ d = S3.CounterMetric)
        \/ (metricType = "gauge" /\ value = FormatFloat (S3.Value d)
            /\ S3.Type_ d = S3.GaugeMetric))
       /\ S3.EncodeInterMetricCSV d w (Some p) hostName interval timeFormat tags
          = let w' := fst (Csv.Write w (encode_fields d p hostName interval timeFormat tags
                                          metricType value)) in
            S3.Returned w' (option_map S3.WriterError (Csv.Error w')).
Proof.
  unfold encode_fields. rewrite <- partition_ymd_format.
  destruct d as [n ts v tg [| |code]].
  - right. exists "rate", (FormatFloat (fdiv v interval)).
    split; [left; repeat split|reflexivity].
  - right. exists "gauge", (FormatFloat v).
    split; [right; repeat split|reflexivity].
  - left. split; [reflexivity|]. now exists code.
Qed.



End EncodeFacts.

(** C5: a counter-typed InterMetric is written with MetricType [rate] and
    Value [value / interval]; a gauge-typed one with MetricType [gauge]
    and its value unchanged.  The call returns [w.Error()] of the writer
    after the [Write]. *)
Theorem encode_counter_rate_gauge_value (F : Type) (FM : FloatModel F)
    (name : string) (ts : Z) (value : F) (metricTags : list string)
    (w : Csv.Writer) (p : Z) (hostName : string) (interval : F)
    (timeFormat : string) (tags : list string) :
  S3.EncodeInterMetricCSV (S3.mkInterMetric name ts value metricTags S3.CounterMetric)
    w (Some p) hostName interval timeFormat tags
  = (let w' := fst (Csv.Write w [name; tags_field tags metricTags; "rate"; hostName;
                                  FormatFloat interval; GoTime.FormatUnix timeFormat ts;
                                  FormatFloat (fdiv value interval);
                                  GoTime.FormatUnix S3.PartitionDateFormat p]) in
     S3.Returned w' (option_map S3.WriterError (Csv.Error w')))
  /\ S3.EncodeInterMetricCSV (S3.mkInterMetric name ts value metricTags S3.GaugeMetric)
       w (Some p) hostName interval timeFormat tags
  = (let w' := fst (Csv.Write w [name; tags_field tags metricTags; "gauge"; hostName;
                                  FormatFloat interval; GoTime.FormatUnix timeFormat ts;
                                  FormatFloat value;
                                  GoTime.FormatUnix S3.PartitionDateFormat p]) in
     S3.Returned w' (option_map S3.WriterError (Csv.Error w'))).
Proof. split; reflexivity. Qed.






(** C7 (amended): with the tab delimiter, the row is its fields joined
    by tabs, each written as it is unless [fieldNeedsQuotes] holds for
    it (the field is [\.], contains a tab, a double quote, CR or LF, or
    starts with a Unicode space), in which case it is written in double
    quotes with inner quotes doubled; the Tags field is quoted whenever
    some tag contains a tab. *)
Theorem encode_quoting_rule (F : Type) (FM : FloatModel F) (d : S3.InterMetric F)
    (o b : string) (p : Z) (hostName : string) (interval : F)
    (timeFormat : string) (tags : list string) :
  (forall t, In t (tags ++ S3.Tags d)%list -> contains_char tab t = true ->
     Csv.fieldNeedsQuotes 9 (tags_field tags (S3.Tags d)) = true)
  /\ ((exists code, S3.Type_ d = S3.OtherMetricType code)
      \/ exists metricType value w',
           S3.EncodeInterMetricCSV d (tsv_writer o b) (Some p) hostName interval timeFormat tags
           = S3.Returned w' None
           /\ Csv.contents w'
              = o ++ b ++ join TAB (map (Csv.render_field 9 false)
                       [S3.Name d; tags_field tags (S3.Tags d); metricType; hostName;
                        FormatFloat interval; GoTime.FormatUnix timeFormat (S3.Timestamp d);
                        value; partition_ymd p]) ++ char lf).
Proof.
  split.
  - intros t Hin Ht. unfold Csv.fieldNeedsQuotes. rewrite Facts.ContainsRune_tab.
    unfold tags_field. simpl.
    rewrite contains_char_app, (contains_char_join _ _ t _ Hin Ht). reflexivity.
  - destruct (encode_known_type d (tsv_writer o b) p hostName interval timeFormat tags)
      as [[_ Hother]|(mt & v & _ & Henc)]; [left; exact Hother|].
    set (fields := encode_fields d p hostName interval timeFormat tags mt v) in Henc.
    destruct (WriterFacts.Write_healthy (tsv_writer o b) fields (WriterFacts.tsv_writer_healthy o b))
      as (_ & HE & _ & _ & _ & HC).
    right. exists mt, v, (fst (Csv.Write (tsv_writer o b) fields)).
    split; [rewrite Henc; cbv zeta; rewrite HE; reflexivity|].
    rewrite HC, WriterFacts.tsv_writer_contents, <- Facts.str_app_assoc.
    cbn [tsv_writer Csv.Comma Csv.UseCRLF]. rewrite Facts.render_record_tab. reflexivity.
Qed.

Lemma encode_quoting_rule_witness :
  In ("foo:b" ++ TAB ++ "ar") ([] ++ S3.Tags tab_tag_metric)%list
  /\ contains_char tab ("foo:b" ++ TAB ++ "ar") = true
  /\ Csv.fieldNeedsQuotes 9 (tags_field [] (S3.Tags tab_tag_metric)) = true.
Proof.
  split; [simpl; auto|]. split; [reflexivity|].
  apply (proj1 (encode_quoting_rule Q Q_FloatModel tab_tag_metric "" "" 0 "h" 10
                  "2006-01-02 03:04:05" []) ("foo:b" ++ TAB ++ "ar")).
  - simpl; auto.
  - reflexivity.
Defined.

(** C7 (counterexample): a gauge whose only tag contains a double quote
    and no tab; no field contains a tab, yet the Tags field is written
    quoted, so the row differs from its fields joined by tabs. *)
Lemma encode_quoted_without_tab :
  let d := S3.mkInterMetric "a.b.c" 0 5 ["a" ++ char dquote ++ "b"] S3.GaugeMetric in
  let fields := ["a.b.c"; "{a" ++ char dquote ++ "b}"; "gauge"; "h"; "10"; "1970";
                 "5"; "19700101"] in
  forallb (fun f => negb (contains_char tab f)) fields = true
  /\ S3.EncodeInterMetricCSV d (tsv_writer "" "") (Some 0%Z) "h" 10 "2006" []
     = S3.Returned (fst (Csv.Write (tsv_writer "" "") fields)) None
  /\ Csv.contents (fst (Csv.Write (tsv_writer "" "") fields)) <> join TAB fields ++ char lf.
Proof.
  intros d fields. split; [vm_compute; reflexivity|]. split.
  - vm_compute. reflexivity.
  - vm_compute. discriminate.
Qed.
(* ================================================================== *)
(** ** Further properties of [plugins/s3/csv.go] *)

(** The schema names round-trip through [tsvMapping]: each field's
    [String()] is a key mapped to the field's index, and every key maps
    to the index of the field whose [String()] it is. *)
Theorem tsvMapping_String_roundtrip :
  (forall f, S3Schema.map_lookup (S3Schema.tsvField_String f) S3Schema.tsvMapping
             = Some (S3.tsvField_iota f))
  /\ (forall k i, S3Schema.map_lookup k S3Schema.tsvMapping = Some i ->
        exists f, S3.tsvField_iota f = i /\ S3Schema.tsvField_String f = k).
Proof.
  split.
  - intros f; destruct f; reflexivity.
  - intros k i H.
    assert (Hm : S3Schema.tsvMapping
                 = [("Partition", 7); ("Value", 6); ("Timestamp", 5); ("Interval", 4);
                    ("VeneurHostname", 3); ("MetricType", 2); ("Tags", 1); ("Name", 0)]%nat)
      by reflexivity.
    rewrite Hm in H. cbn [S3Schema.map_lookup] in H.
    repeat match type of H with
    | context [String.eqb k ?s] =>
        let E := fresh "E" in
        destruct (String.eqb k s) eqn:E; [apply String.eqb_eq in E; subst k|]
    end; simpl in H; try discriminate H; injection H as <-;
      [ exists S3.TsvPartition | exists S3.TsvValue | exists S3.TsvTimestamp
      | exists S3.TsvInterval | exists S3.TsvVeneurHostname | exists S3.TsvMetricType
      | exists S3.TsvTags | exists S3.TsvName ]; split; reflexivity.
Qed.

Lemma tsvMapping_String_roundtrip_witness :
  S3Schema.map_lookup "Interval" S3Schema.tsvMapping = Some 4%nat
  /\ exists f, S3.tsvField_iota f = 4%nat /\ S3Schema.tsvField_String f = "Interval".
Proof.
  split; [reflexivity|].
  apply (proj2 tsvMapping_String_roundtrip "Interval" 4%nat). reflexivity.
Defined.



Section EncodeMore.
Context {F : Type} `{FloatModel F}.




End EncodeMore.



Module RowFacts.




Lemma contains_join (c : ascii) (sep : string) (l : list string) :
  contains_char c sep = false ->
  contains_char c (join sep l) = existsb (contains_char c) l.
Proof.
  intros Hs. induction l as [|x l IH]; [reflexivity|].
  destruct l as [|y l'].
  - simpl. now rewrite orb_false_r.
  - change (join sep (x :: y :: l')) with (x ++ sep ++ join sep (y :: l')).
    rewrite !contains_char_app, Hs, IH. reflexivity.
Qed.






End RowFacts.

Module RowFacts2.
Import RowFacts.



Lemma contains_tags_field (c : ascii) (ts md : list string) :
  c <> "{"%char -> c <> "}"%char -> c <> ","%char ->
  contains_char c (tags_field ts md) = existsb (contains_char c) (ts ++ md).
Proof.
  intros H1 H2 H3. unfold tags_field.
  rewrite !contains_char_app, contains_join.
  - simpl. destruct (Ascii.eqb_spec c "{"); [congruence|].
    destruct (Ascii.eqb_spec c "}"); [congruence|]. simpl. now rewrite orb_false_r.
  - simpl. destruct (Ascii.eqb_spec c ","); [congruence|reflexivity].
Qed.

End RowFacts2.

Section RowMore.
Context {F : Type} `{FloatModel F}.



End RowMore.






(** The Tags field is quoted exactly when one of the tags (the sink's
    tags, then the metric's) contains a tab, a double quote, a CR or an
    LF: the braces and commas the encoder adds never cause quoting. *)
Theorem tags_field_quoted_iff (tags metricTags : list string) :
  Csv.fieldNeedsQuotes 9 (tags_field tags metricTags)
  = existsb (contains_char tab) (tags ++ metricTags)
    || existsb (contains_char dquote) (tags ++ metricTags)
    || existsb (contains_char cr) (tags ++ metricTags)
    || existsb (contains_char lf) (tags ++ metricTags).
Proof.
  rewrite <- !RowFacts2.contains_tags_field by discriminate.
  unfold Csv.fieldNeedsQuotes. rewrite Facts.ContainsRune_tab.
  assert (Hs : exists r, tags_field tags metricTags = String "{" r)
    by (eexists; reflexivity).
  destruct Hs as [r Hr]. rewrite Hr.
  cbn [String.eqb Ascii.eqb Bool.eqb]. rewrite orb_false_l.
  assert (Hsp : Csv.starts_with_space (String "{" r) = false) by reflexivity.
  rewrite Hsp.
  destruct (contains_char tab (String "{" r) || contains_char dquote (String "{" r)
            || contains_char cr (String "{" r) || contains_char lf (String "{" r));
    reflexivity.
Qed.
Module CalendarFacts.
Import Calendar.
Open Scope Z_scope.

Ltac divmod x k :=
  pose proof (Z.div_mod x k ltac:(lia)); pose proof (Z.mod_pos_bound x k ltac:(lia)).

(** The year of era and the day of that (March-based) year. *)
Lemma yoe_doy (doe : Z) : 0 <= doe < 146097 ->
  let yoe := (doe - doe / 1460 + doe / 36524 - doe / 146096) / 365 in
  let doy := doe - (365 * yoe + yoe / 4 - yoe / 100) in
  0 <= doy <= 365 /\ 0 <= yoe <= 399
  /\ (doy = 365 -> (yoe + 1) mod 4 = 0 /\ ((yoe + 1) mod 100 <> 0 \/ (yoe + 1) mod 400 = 0)).
Proof.
  intros Hd yoe doy.
  divmod doe 1460. divmod doe 36524. divmod doe 146096.
  set (g := doe - doe / 1460 + doe / 36524 - doe / 146096) in *.
  divmod g 365. subst yoe. set (yoe := g / 365) in *.
  divmod yoe 4. divmod yoe 100.
  divmod (yoe + 1) 4. divmod (yoe + 1) 100. divmod (yoe + 1) 400.
  subst doy g. split; [lia|]. split; [lia|]. intros Hy. lia.
Qed.

(** Month and day from the day of a March-based year. *)
Lemma month_day (doy : Z) : 0 <= doy <= 365 ->
  let mp := (5 * doy + 2) / 153 in
  let d := doy - (153 * mp + 2) / 5 + 1 in
  let m := if mp <? 10 then mp + 3 else mp - 9 in
  1 <= m <= 12 /\ 1 <= d
  /\ (m = 2 -> d <= 28 \/ (d = 29 /\ doy = 365))
  /\ (m = 4 \/ m = 6 \/ m = 9 \/ m = 11 -> d <= 30)
  /\ d <= 31.
Proof.
  intros Hd. cbv zeta.
  divmod (5 * doy + 2) 153. remember ((5 * doy + 2) / 153) as mp eqn:Emp.
  assert (Hmp : mp = 0 \/ mp = 1 \/ mp = 2 \/ mp = 3 \/ mp = 4 \/ mp = 5 \/ mp = 6
                \/ mp = 7 \/ mp = 8 \/ mp = 9 \/ mp = 10 \/ mp = 11) by lia.
  destruct Hmp as [E|[E|[E|[E|[E|[E|[E|[E|[E|[E|[E|E]]]]]]]]]]]; rewrite E in *; cbn;
    repeat split; intros; lia.
Qed.

Lemma is_leap_shift (y k : Z) : is_leap (y + k * 400) = is_leap y.
Proof.
  unfold is_leap.
  replace (y + k * 400) with (y + (k * 100) * 4) by lia. rewrite Z.mod_add by lia.
  replace (y + k * 100 * 4) with (y + (k * 4) * 100) by lia. rewrite Z.mod_add by lia.
  replace (y + k * 4 * 100) with (y + k * 400) by lia. rewrite Z.mod_add by lia.
  reflexivity.
Qed.

End CalendarFacts.

Module CalendarFacts2.
Import Calendar CalendarFacts.
Open Scope Z_scope.

Lemma is_leap_of (y : Z) :
  y mod 4 = 0 -> (y mod 100 <> 0 \/ y mod 400 = 0) -> is_leap y = true.
Proof.
  intros H4 H. unfold is_leap. rewrite H4. simpl.
  destruct H as [H|H].
  - apply Z.eqb_neq in H. rewrite H. reflexivity.
  - rewrite H, orb_true_r. reflexivity.
Qed.

(** Every day number is sent to a date of the calendar. *)
Lemma civil_valid (n : Z) :
  let '(y, m, d) := GoTime.civil_from_days n in
  1 <= m <= 12 /\ 1 <= d <= days_in_month y m.
Proof.
  unfold GoTime.civil_from_days.
  set (z := n + 719468). set (era := z / 146097). set (doe := z - era * 146097).
  assert (Hdoe : 0 <= doe < 146097) by (subst doe era; divmod z 146097; lia).
  pose proof (yoe_doy doe Hdoe) as Hy. cbv zeta in Hy.
  set (yoe := (doe - doe / 1460 + doe / 36524 - doe / 146096) / 365) in *.
  set (doy := doe - (365 * yoe + yoe / 4 - yoe / 100)) in *.
  destruct Hy as (Hdoy & Hyoe & Hleap).
  pose proof (month_day doy Hdoy) as Hm. cbv zeta in Hm.
  set (mp := (5 * doy + 2) / 153) in *.
  set (d := doy - (153 * mp + 2) / 5 + 1) in *.
  set (m := if mp <? 10 then mp + 3 else mp - 9) in *.
  destruct Hm as (Hm & Hd1 & Hfeb & H30 & H31).
  split; [exact Hm|]. split; [exact Hd1|].
  unfold days_in_month.
  destruct (Z.eqb_spec m 2) as [E2|E2].
  - assert (Hle : (m <=? 2) = true) by (apply Z.leb_le; lia). rewrite Hle.
    destruct (Hfeb E2) as [H28|[H29 H365]].
    + destruct (is_leap _); lia.
    + replace (yoe + era * 400 + 1) with ((yoe + 1) + era * 400) by lia.
      rewrite is_leap_shift.
      destruct (Hleap H365) as [A B]. rewrite (is_leap_of _ A B). lia.
  - destruct ((m =? 4) || (m =? 6) || (m =? 9) || (m =? 11)) eqn:E.
    + apply H30. repeat (apply orb_prop in E as [E|E]); apply Z.eqb_eq in E; tauto.
    + exact H31.
Qed.

End CalendarFacts2.

Module CalendarFacts3.
Import Calendar CalendarFacts CalendarFacts2.
Open Scope Z_scope.

Lemma is_leap_false (y : Z) :
  ~ (y mod 4 = 0 /\ (y mod 100 <> 0 \/ y mod 400 = 0)) -> is_leap y = false.
Proof.
  intros H. unfold is_leap.
  destruct (Z.eqb_spec (y mod 4) 0), (Z.eqb_spec (y mod 100) 0), (Z.eqb_spec (y mod 400) 0);
    simpl; first [tauto | exfalso; divmod y 4; divmod y 400; lia].
Qed.

Lemma yoe_bracket (doe : Z) : 0 <= doe < 146097 ->
  0 <= yoe_of doe <= 399 /\ ystart (yoe_of doe) <= doe
  /\ (doe < ystart (yoe_of doe + 1) \/ (yoe_of doe = 399 /\ doe = 146096)).
Proof.
  intros Hd. unfold ystart, yoe_of.
  divmod doe 1460. divmod doe 36524. divmod doe 146096.
  set (g := doe - doe / 1460 + doe / 36524 - doe / 146096) in *.
  divmod g 365. set (yoe := g / 365) in *.
  divmod yoe 4. divmod yoe 100. divmod (yoe + 1) 4. divmod (yoe + 1) 100.
  subst g. lia.
Qed.

(** From one day of era to the next: same year of era, or the next one
    starting right there. *)
Lemma yoe_step (doe : Z) : 0 <= doe < 146096 ->
  let a := yoe_of doe in let b := yoe_of (doe + 1) in
  let leap := (a + 1) mod 4 = 0 /\ ((a + 1) mod 100 <> 0 \/ (a + 1) mod 400 = 0) in
  (b = a /\ doe - ystart a <= 364 /\ (doe - ystart a = 364 -> leap))
  \/ (b = a + 1 /\ ystart b = doe + 1
      /\ (doe - ystart a = 365 \/ (doe - ystart a = 364 /\ ~ leap))).
Proof.
  intros Hd a b leap. subst leap.
  pose proof (yoe_bracket doe ltac:(lia)) as A.
  pose proof (yoe_bracket (doe + 1) ltac:(lia)) as B.
  fold a in A. fold b in B. clearbody a b.
  unfold ystart in *.
  divmod a 4. divmod a 100. divmod (a + 1) 4. divmod (a + 1) 100. divmod (a + 1) 400.
  divmod b 4. divmod b 100. divmod (b + 1) 4. divmod (b + 1) 100.
  lia.
Qed.

(** Inside a March-based year. *)
Lemma step_same (y0 doy : Z) : 0 <= doy <= 364 ->
  (doy = 364 -> is_leap (y0 + 1) = true) ->
  next_date (Tdate y0 doy) = Tdate y0 (doy + 1).
Proof.
  intros Hd Hl. unfold Tdate. cbv zeta.
  divmod (5 * doy + 2) 153. remember ((5 * doy + 2) / 153) as mp eqn:Emp.
  divmod (5 * (doy + 1) + 2) 153. remember ((5 * (doy + 1) + 2) / 153) as mp' eqn:Emp'.
  assert (Hmp : mp = 0 \/ mp = 1 \/ mp = 2 \/ mp = 3 \/ mp = 4 \/ mp = 5 \/ mp = 6
                \/ mp = 7 \/ mp = 8 \/ mp = 9 \/ mp = 10 \/ mp = 11) by lia.
  assert (Hmp' : mp' = mp \/ mp' = mp + 1) by lia.
  destruct Hmp as [E|[E|[E|[E|[E|[E|[E|[E|[E|[E|[E|E]]]]]]]]]]]; rewrite E in *;
  destruct Hmp' as [E'|E']; rewrite E' in *; cbn -[is_leap];
  try (destruct (is_leap (y0 + 1)) eqn:L);
  repeat match goal with |- context [?a <? ?b] => destruct (Z.ltb_spec a b) end;
  try (exfalso; lia);
  rewrite !pair_equal_spec; repeat split; lia.
Qed.

(** From the last day of a March-based year (the last of February) to
    the first of March. *)
Lemma step_new (y0 doy : Z) :
  (doy = 365 /\ is_leap (y0 + 1) = true) \/ (doy = 364 /\ is_leap (y0 + 1) = false) ->
  next_date (Tdate y0 doy) = Tdate (y0 + 1) 0.
Proof.
  intros [[-> L]|[-> L]]; unfold Tdate; cbn -[is_leap]; rewrite L; cbn;
    rewrite !pair_equal_spec; repeat split; lia.
Qed.

Lemma civil_Tdate (n : Z) :
  GoTime.civil_from_days n
  = Tdate (yoe_of ((n + 719468) mod 146097) + (n + 719468) / 146097 * 400)
          ((n + 719468) mod 146097 - ystart (yoe_of ((n + 719468) mod 146097))).
Proof.
  unfold GoTime.civil_from_days, Tdate, yoe_of, ystart. cbv zeta.
  replace (n + 719468 - (n + 719468) / 146097 * 146097) with ((n + 719468) mod 146097)
    by (rewrite Z.mod_eq by lia; lia).
  reflexivity.
Qed.

(** The day after day [n] is the calendar day after the date of [n]. *)
Lemma civil_succ (n : Z) :
  GoTime.civil_from_days (n + 1) = next_date (GoTime.civil_from_days n).
Proof.
  rewrite !civil_Tdate.
  set (z := n + 719468). replace (n + 1 + 719468) with (z + 1) by (subst z; lia).
  set (era := z / 146097). set (doe := z mod 146097).
  assert (Hz : z = era * 146097 + doe) by (subst era doe; pose proof (Z.div_mod z 146097); lia).
  assert (Hdoe : 0 <= doe < 146097) by (subst doe; apply Z.mod_pos_bound; lia).
  clearbody era doe.
  destruct (Z.eq_dec doe 146096) as [Ed|Ed].
  - assert (E1 : (z + 1) / 146097 = era + 1).
    { rewrite Hz, Ed. replace (era * 146097 + 146096 + 1) with ((era + 1) * 146097) by lia.
      apply Z.div_mul. lia. }
    assert (E2 : (z + 1) mod 146097 = 0).
    { rewrite Hz, Ed. replace (era * 146097 + 146096 + 1) with ((era + 1) * 146097) by lia.
      apply Z.mod_mul. lia. }
    rewrite E1, E2, Ed.
    replace (yoe_of 0 + (era + 1) * 400) with ((yoe_of 146096 + era * 400) + 1)
      by (vm_compute yoe_of; lia).
    replace (0 - ystart (yoe_of 0)) with 0 by reflexivity.
    symmetry. apply step_new. left. split; [reflexivity|].
    replace (yoe_of 146096 + era * 400 + 1) with (400 + era * 400) by (vm_compute yoe_of; lia).
    rewrite is_leap_shift. reflexivity.
  - assert (E1 : (z + 1) / 146097 = era).
    { rewrite Hz. replace (era * 146097 + doe + 1) with ((doe + 1) + era * 146097) by lia.
      rewrite Z.div_add by lia. rewrite Z.div_small by lia. lia. }
    assert (E2 : (z + 1) mod 146097 = doe + 1).
    { rewrite Hz. replace (era * 146097 + doe + 1) with ((doe + 1) + era * 146097) by lia.
      rewrite Z.mod_add by lia. apply Z.mod_small. lia. }
    rewrite E1, E2.
    pose proof (yoe_doy doe Hdoe) as Hy. cbv zeta in Hy. fold (yoe_of doe) in Hy.
    destruct Hy as (_ & _ & Hleap).
    destruct (yoe_step doe ltac:(lia)) as [(Eb & Hle & H364)|(Eb & Es & Hlast)];
      cbv zeta in *; rewrite Eb.
    + replace (doe + 1 - ystart (yoe_of doe)) with ((doe - ystart (yoe_of doe)) + 1) by lia.
      symmetry. apply step_same.
      * split; [|exact Hle]. pose proof (yoe_bracket doe Hdoe). lia.
      * intros E. replace (yoe_of doe + era * 400 + 1) with ((yoe_of doe + 1) + era * 400) by lia.
        rewrite is_leap_shift. destruct (H364 E) as [A B]. apply is_leap_of; assumption.
    + rewrite Eb in Es. rewrite Es. replace (doe + 1 - (doe + 1)) with 0 by lia.
      replace (yoe_of doe + 1 + era * 400) with ((yoe_of doe + era * 400) + 1) by lia.
      symmetry. apply step_new.
      replace (yoe_of doe + era * 400 + 1) with ((yoe_of doe + 1) + era * 400) by lia.
      rewrite is_leap_shift.
      unfold ystart in Hleap. fold (ystart (yoe_of doe)) in Hleap.
      destruct Hlast as [H365|[H364' Hn]].
      * left. split; [exact H365|]. destruct (Hleap H365) as [A B]. apply is_leap_of; assumption.
      * right. split; [exact H364'|]. apply is_leap_false. exact Hn.
Qed.

End CalendarFacts3.

(** [time.Unix(t, 0).UTC()] always gives a real date and time: a month
    from 1 to 12, a day within that month of that year (leap years
    included), an hour below 24, minutes and seconds below 60, and the
    time of day adds back up to the absolute time [abs t] with its day
    number. *)
Theorem utc_valid (t : Z) :
  let c := GoTime.utc t in
  (1 <= GoTime.month c <= 12
   /\ 1 <= GoTime.day c <= Calendar.days_in_month (GoTime.year c) (GoTime.month c)
   /\ 0 <= GoTime.hour c < 24 /\ 0 <= GoTime.minute c < 60 /\ 0 <= GoTime.second c < 60
   /\ GoTime.abs t = 86400 * (GoTime.abs t / 86400) + 3600 * GoTime.hour c
                     + 60 * GoTime.minute c + GoTime.second c)%Z.
Proof.
  cbv zeta. unfold GoTime.utc. set (a := GoTime.abs t).
  unfold GoTime.secondsPerDay.
  pose proof (CalendarFacts2.civil_valid
                (a / 86400 - (GoTime.unixToInternal + GoTime.internalToAbsolute) / 86400)) as V.
  destruct (GoTime.civil_from_days
              (a / 86400 - (GoTime.unixToInternal + GoTime.internalToAbsolute) / 86400))
    as [[y m] d].
  cbn [GoTime.year GoTime.month GoTime.day GoTime.hour GoTime.minute GoTime.second].
  destruct V as [Hm Hd]. split; [exact Hm|]. split; [exact Hd|].
  pose proof (Z.div_mod a 86400 ltac:(lia)). pose proof (Z.mod_pos_bound a 86400 ltac:(lia)).
  set (s := (a mod 86400)%Z) in *.
  pose proof (Z.div_mod s 3600 ltac:(lia)). pose proof (Z.mod_pos_bound s 3600 ltac:(lia)).
  pose proof (Z.div_mod (s mod 3600) 60 ltac:(lia)).
  pose proof (Z.mod_pos_bound (s mod 3600) 60 ltac:(lia)).
  pose proof (Z.div_mod s 60 ltac:(lia)). pose proof (Z.mod_pos_bound s 60 ltac:(lia)).
  repeat split; lia.
Qed.

(** Between [-(unixToInternal + internalToAbsolute)] and [2^64] seconds
    after it, [abs t] does not wrap: the UTC date is that of the day
    [t / 86400] counted from 1970-01-01, the time of day [t mod 86400]. *)
Lemma utc_nowrap (t : Z) :
  (- (GoTime.unixToInternal + GoTime.internalToAbsolute) <= t
   < 2 ^ 64 - (GoTime.unixToInternal + GoTime.internalToAbsolute))%Z ->
  GoTime.utc t =
  let '(y, m, d) := GoTime.civil_from_days (t / 86400) in
  let s := (t mod 86400)%Z in
  GoTime.mkCivil y m d (s / 3600) ((s mod 3600) / 60) (s mod 60).
Proof.
  intros Ht. unfold GoTime.utc, GoTime.abs, GoTime.secondsPerDay.
  assert (HK : (GoTime.unixToInternal + GoTime.internalToAbsolute = 106751991073094 * 86400)%Z)
    by reflexivity.
  rewrite HK in *.
  change (2 ^ 64)%Z with 18446744073709551616%Z in *.
  rewrite (Z.mod_small _ 18446744073709551616) by lia.
  rewrite Z.div_add, Z.mod_add, Z.div_mul by lia.
  replace (t / 86400 + 106751991073094 - 106751991073094)%Z with (t / 86400)%Z by lia.
  reflexivity.
Qed.

(** Adding a day to a Unix time moves its UTC date to the next calendar
    day, across month ends, year ends and leap days, as long as [abs]
    does not wrap; time 0 is 1970-01-01.  So consecutive UTC days get
    consecutive dates. *)
Theorem utc_next_day (t : Z) :
  (- (GoTime.unixToInternal + GoTime.internalToAbsolute) <= t)%Z ->
  (t + 86400 < 2 ^ 64 - (GoTime.unixToInternal + GoTime.internalToAbsolute))%Z ->
  Calendar.date_of (GoTime.utc (t + 86400))
  = Calendar.next_date (Calendar.date_of (GoTime.utc t))
  /\ Calendar.date_of (GoTime.utc 0) = (1970, 1, 1)%Z.
Proof.
  intros Hlo Hhi. split; [|reflexivity].
  rewrite !utc_nowrap by lia.
  unfold Calendar.date_of.
  replace ((t + 86400) / 86400)%Z with (t / 86400 + 1)%Z
    by (rewrite <- (Z.div_add t 1 86400) by lia; f_equal; lia).
  rewrite CalendarFacts3.civil_succ.
  destruct (GoTime.civil_from_days (t / 86400)) as [[y m] d].
  cbn [GoTime.year GoTime.month GoTime.day].
  destruct (Calendar.next_date (y, m, d)) as [[y' m'] d'] eqn:E. reflexivity.
Qed.

Lemma utc_next_day_witness :
  Calendar.date_of (GoTime.utc (951696000 + 86400))
  = Calendar.next_date (Calendar.date_of (GoTime.utc 951696000))
  /\ Calendar.date_of (GoTime.utc 0) = (1970, 1, 1)%Z.
Proof.
  apply (utc_next_day 951696000);
    unfold GoTime.unixToInternal, GoTime.internalToAbsolute; lia.
Defined.

Module DecodeFacts.
Import Decode.
Open Scope Z_scope.

Lemma zeros_succ (k : nat) :
  String.concat "" (repeat "0" (S k)) = String "0" (String.concat "" (repeat "0" k)).
Proof. destruct k; reflexivity. Qed.

Lemma uint_of_zeros (k : nat) (s : string) (u : Decimal.uint) :
  NilEmpty.uint_of_string s = Some u ->
  exists v, NilEmpty.uint_of_string (String.concat "" (repeat "0" k) ++ s) = Some v
            /\ N.of_uint v = N.of_uint u.
Proof.
  intros Hs. induction k as [|k [v [Hv Ev]]].
  - exists u. split; [exact Hs | reflexivity].
  - exists (Decimal.D0 v). rewrite zeros_succ. cbn [append NilEmpty.uint_of_string].
    rewrite Hv. split; [reflexivity|].
    rewrite <- Ev, <- (DecimalN.Unsigned.of_uint_norm (Decimal.D0 v)),
      <- (DecimalN.Unsigned.of_uint_norm v).
    reflexivity.
Qed.

Lemma dec_pad (w : nat) (n : N) : dec (pad_N w n) = n.
Proof.
  unfold dec, pad_N, of_N.
  destruct (uint_of_zeros (w - String.length (NilEmpty.string_of_uint (N.to_uint n)))
              _ _ (NilEmpty.usu (N.to_uint n))) as [v [Hv Ev]].
  rewrite Hv, Ev. apply DecimalN.Unsigned.of_to.
Qed.

Lemma pad_not_minus (w : nat) (n : N) (r : string) : pad_N w n <> String "-" r.
Proof.
  unfold pad_N, of_N.
  destruct (w - String.length (NilEmpty.string_of_uint (N.to_uint n)))%nat as [|k].
  - cbn [repeat String.concat append].
    destruct (N.to_uint n); cbn; discriminate.
  - rewrite zeros_succ. cbn. discriminate.
Qed.

Lemma decZ_appendInt (x : Z) (w : nat) : decZ (GoTime.appendInt x w) = x.
Proof.
  unfold GoTime.appendInt. destruct (Z.ltb_spec x 0) as [Hx|Hx].
  - cbn [append decZ]. rewrite dec_pad. cbn. rewrite Z2N.id by lia. lia.
  - cbn [append]. pose proof (pad_not_minus w (Z.to_N (Z.abs x))) as Hn.
    unfold decZ. destruct (pad_N w (Z.to_N (Z.abs x))) as [|c r] eqn:E.
    + pose proof (dec_pad w (Z.to_N (Z.abs x))) as D. rewrite E in D.
      cbn in D. rewrite Z.abs_eq in D by lia. lia.
    + destruct (Ascii.eqb_spec c "-") as [->|Hc].
      * exfalso. exact (Hn r eq_refl).
      * rewrite <- E, dec_pad, Z.abs_eq by lia. apply Z2N.id. exact Hx.
Qed.

Lemma appendInt_inj (x y : Z) (w : nat) :
  GoTime.appendInt x w = GoTime.appendInt y w -> x = y.
Proof.
  intros E. rewrite <- (decZ_appendInt x w), <- (decZ_appendInt y w), E. reflexivity.
Qed.

Lemma str_length_app (a b : string) :
  String.length (a ++ b) = (String.length a + String.length b)%nat.
Proof. induction a as [|c a IH]; cbn; [reflexivity|]. rewrite IH. reflexivity. Qed.

Lemma app_cancel (a b a' b' : string) :
  String.length b = String.length b' -> (a ++ b = a' ++ b')%string -> a = a' /\ b = b'.
Proof.
  revert a'. induction a as [|c a IH]; intros a' Hl E; destruct a' as [|c' a'].
  - split; [reflexivity | exact E].
  - exfalso. cbn in E. subst b. cbn in Hl. rewrite str_length_app in Hl. lia.
  - exfalso. cbn in E. subst b'. cbn in Hl. rewrite str_length_app in Hl. lia.
  - cbn in E. injection E as -> E. destruct (IH a' Hl E) as [-> ->]. split; reflexivity.
Qed.

Lemma all_upto_spec (f : Z -> bool) (n : nat) (s x : Z) :
  all_upto f n s = true -> s <= x < s + Z.of_nat n -> f x = true.
Proof.
  revert s. induction n as [|n IH]; intros s H Hx; [lia|].
  cbn [all_upto] in H. apply andb_prop in H as [H1 H2].
  destruct (Z.eq_dec x s) as [->|Hne]; [exact H1|].
  apply (IH (s + 1)); [exact H2 | lia].
Qed.

(** Months and days are written with exactly two digits. *)
Lemma appendInt_2 (x : Z) : 1 <= x <= 31 -> String.length (GoTime.appendInt x 2) = 2%nat.
Proof.
  intros Hx. apply Nat.eqb_eq.
  apply (all_upto_spec (fun x => Nat.eqb (String.length (GoTime.appendInt x 2)) 2) 31 1);
    [vm_compute; reflexivity | cbn; lia].
Qed.

Lemma days_in_month_le (y m : Z) : Calendar.days_in_month y m <= 31.
Proof.
  unfold Calendar.days_in_month. destruct (m =? 2); [destruct (Calendar.is_leap y)|];
    [lia|lia|]. destruct (_ || _); lia.
Qed.

Lemma key_next (c : Z * Z * Z) :
  let '(y, m, d) := c in
  1 <= m <= 12 -> 1 <= d <= Calendar.days_in_month y m ->
  key c < key (Calendar.next_date c).
Proof.
  destruct c as [[y m] d]. intros Hm Hd.
  pose proof (days_in_month_le y m) as Hdim.
  unfold Calendar.next_date.
  destruct (Z.ltb_spec d (Calendar.days_in_month y m)); [cbn; lia|].
  destruct (Z.ltb_spec m 12); cbn; lia.
Qed.

Lemma key_civil_succ (n : Z) :
  key (GoTime.civil_from_days n) < key (GoTime.civil_from_days (n + 1)).
Proof.
  rewrite CalendarFacts3.civil_succ.
  pose proof (CalendarFacts2.civil_valid n) as V. pose proof (key_next (GoTime.civil_from_days n)) as K.
  destruct (GoTime.civil_from_days n) as [[y m] d]. destruct V. apply K; assumption.
Qed.

Lemma key_civil_mono (n k : Z) : 0 < k ->
  key (GoTime.civil_from_days n) < key (GoTime.civil_from_days (n + k)).
Proof.
  intros Hk. replace k with (Z.of_nat (Z.to_nat (k - 1)) + 1) by lia.
  induction (Z.to_nat (k - 1)) as [|j IH].
  - apply key_civil_succ.
  - eapply Z.lt_trans; [exact IH|].
    replace (n + (Z.of_nat (S j) + 1)) with ((n + (Z.of_nat j + 1)) + 1) by lia.
    apply key_civil_succ.
Qed.

Lemma civil_inj (n n' : Z) :
  GoTime.civil_from_days n = GoTime.civil_from_days n' -> n = n'.
Proof.
  intros E. destruct (Z.lt_trichotomy n n') as [H|[H|H]]; [|exact H|].
  - pose proof (key_civil_mono n (n' - n) ltac:(lia)) as K.
    replace (n + (n' - n)) with n' in K by lia. rewrite E in K. lia.
  - pose proof (key_civil_mono n' (n - n') ltac:(lia)) as K.
    replace (n' + (n - n')) with n in K by lia. rewrite E in K. lia.
Qed.

End DecodeFacts.

(** Two Unix times for which [abs] does not wrap are written with the
    same partition exactly when they fall on the same UTC day: each day
    has its own [YYYYMMDD] name. *)
Theorem partition_iff_same_day (p q : Z) :
  (- (GoTime.unixToInternal + GoTime.internalToAbsolute) <= p
   < 2 ^ 64 - (GoTime.unixToInternal + GoTime.internalToAbsolute))%Z ->
  (- (GoTime.unixToInternal + GoTime.internalToAbsolute) <= q
   < 2 ^ 64 - (GoTime.unixToInternal + GoTime.internalToAbsolute))%Z ->
  GoTime.FormatUnix S3.PartitionDateFormat p = GoTime.FormatUnix S3.PartitionDateFormat q
  <-> (p / 86400 = q / 86400)%Z.
Proof.
  intros Hp Hq.
  rewrite !partition_ymd_format. unfold partition_ymd.
  rewrite (utc_nowrap p Hp), (utc_nowrap q Hq).
  split; [|intros E; rewrite E; reflexivity].
  pose proof (CalendarFacts2.civil_valid (p / 86400)) as Vp.
  pose proof (CalendarFacts2.civil_valid (q / 86400)) as Vq.
  intros E. apply DecodeFacts.civil_inj. revert E Vp Vq.
  destruct (GoTime.civil_from_days (p / 86400)) as [[y m] d].
  destruct (GoTime.civil_from_days (q / 86400)) as [[y' m'] d'].
  cbn [GoTime.year GoTime.month GoTime.day].
  intros E [Hm Hd] [Hm' Hd'].
  pose proof (DecodeFacts.days_in_month_le y m). pose proof (DecodeFacts.days_in_month_le y' m').
  apply DecodeFacts.app_cancel in E as [E0 E12];
    [|rewrite !DecodeFacts.str_length_app, !DecodeFacts.appendInt_2 by lia; reflexivity].
  apply DecodeFacts.app_cancel in E12 as [E1 E2];
    [|rewrite !DecodeFacts.appendInt_2 by lia; reflexivity].
  apply DecodeFacts.appendInt_inj in E0, E1, E2. subst. reflexivity.
Qed.

Lemma partition_iff_same_day_witness :
  GoTime.FormatUnix S3.PartitionDateFormat 1476119058
  = GoTime.FormatUnix S3.PartitionDateFormat 1476057600
  <-> (1476119058 / 86400 = 1476057600 / 86400)%Z.
Proof.
  apply (partition_iff_same_day 1476119058 1476057600);
    unfold GoTime.unixToInternal, GoTime.internalToAbsolute; lia.
Defined.

(** The 64-bit wrap of [Time.abs]: the smallest [int64] Unix time is
    written as a date in the year 292277026596 at 15:30:08, and the
    largest as the same day at 15:30:07, as Go prints them. *)
Theorem utc_wraps_int64 :
  GoTime.FormatUnix "2006-01-02T15:04:05Z07:00" (- 2 ^ 63)
  = "292277026596-12-04T15:30:08Z"
  /\ GoTime.FormatUnix "2006-01-02T15:04:05Z07:00" (2 ^ 63 - 1)
  = "292277026596-12-04T15:30:07Z".
Proof. split; vm_compute; reflexivity. Qed.
